(** * Surveillance: layered scene interpreter and state-estimator cache

    A shallow embedding of
    - [Surveillance/layers/scene.py]     (class [SceneInterpreterV1]),
    - [Surveillance/activities/state.py] (classes [Base], [StateEstimator]).

    numpy arrays are lists of rows, depth readings are binary64 floats,
    Python exceptions are values of [exn], and methods that mutate [self]
    are computations in a state-and-exception monad that keeps the object
    as it was when the exception was raised. *)

From Stdlib Require Import ZArith Floats.PrimFloat.
From stdpp Require Import gmap strings list.

(** ** Exceptions *)

(** The [assert] statements of scene.py, by line. *)
Inductive assertion :=
  | assert_nonROI_inputs    (* scene.py:160  height_map and depth are stored *)
  | assert_layer_name       (* scene.py:182  layer_name in the choices *)
  | assert_BEV_trans_mat.   (* scene.py:192  BEV_trans_mat is not None *)

Inductive exn :=
  | AssertionError (a : assertion)
  | ValueError                      (* operands could not be broadcast together *)
  | IndexError                      (* index out of bounds, boolean index mismatch *)
  | TypeError                       (* operation on None *)
  | AttributeError (attr : string)  (* attribute read before it exists *)
  | NotImplementedError
  | cv2_error                       (* raised inside OpenCV *)
  | NotCalibrated                   (* height estimator without reference *)
  | ShapeMismatch.                  (* height estimator, frame of another size *)

(** The names the specification gives to the two failures of [get_layer]. *)
Definition UnknownLayer : exn := AssertionError assert_layer_name.

Inductive result (A : Type) :=
  | Ok (a : A)
  | Raise (e : exn).
Arguments Ok {A} a.
Arguments Raise {A} e.

(** Sequencing of two operations that may raise. *)
Definition and_then {A B} (r : result A) (k : A → result B) : result B :=
  match r with
  | Ok a => k a
  | Raise e => Raise e
  end.

(** ** State-and-exception monad

    [M S A] runs on an object of type [S]; an exception leaves the object in
    the state it had reached, as a Python exception leaves [self]. *)

Definition M (S A : Type) : Type := S → result A * S.

Definition ret {S A} (a : A) : M S A := λ s, (Ok a, s).

Definition bind {S A B} (m : M S A) (k : A → M S B) : M S B :=
  λ s, match m s with
       | (Ok a, s') => k a s'
       | (Raise e, s') => (Raise e, s')
       end.

Definition raise {S A} (e : exn) : M S A := λ s, (Raise e, s).

Definition lift {S A} (r : result A) : M S A := λ s, (r, s).

Definition gets {S A} (f : S → A) : M S A := λ s, (Ok (f s), s).

Definition modify {S} (f : S → S) : M S unit := λ s, (Ok tt, f s).

Definition assert {S} (b : bool) (a : assertion) : M S unit :=
  if b then ret tt else raise (AssertionError a).

Notation "x <- c1 ;; c2" := (bind c1 (λ x, c2))
  (at level 100, c1 at next level, right associativity).
Notation "c1 ;; c2" := (bind c1 (λ _, c2))
  (at level 100, right associativity).

(** ** Two-dimensional arrays *)

(** An array is the list of its rows. *)
Abbreviation array2 A := (list (list A)) (only parsing).
Abbreviation mask := (list (list bool)) (only parsing).

Module Np.

(** The extents of an array: the length of each row. *)
Definition shape {A} (a : array2 A) : list nat := length <$> a.

(** [a.shape[0]] and [a.shape[1]]. *)
Definition height {A} (a : array2 A) : nat := length a.
Definition width {A} (a : array2 A) : nat :=
  match a with
  | [] => 0
  | r :: _ => length r
  end.

(** [a[i, j]], [None] out of range. *)
Definition px {A} (a : array2 A) (i j : nat) : option A :=
  a !! i ≫= (λ r, r !! j).

Definition map2d {A B} (f : A → B) (a : array2 A) : array2 B :=
  (λ r : list A, f <$> r) <$> a.

Definition zip2d {A B C} (f : A → B → C) (a : array2 A) (b : array2 B)
  : array2 C :=
  zip_with (zip_with f) a b.

(** An elementwise binary operator.  Operands of different shape raise
    [ValueError]; numpy's stretching of an axis of extent one is not
    modelled, all arrays of one frame have the frame's shape. *)
Definition elementwise {A B C} (f : A → B → C) (a : array2 A) (b : array2 B)
  : result (array2 C) :=
  if decide (shape a = shape b) then Ok (zip2d f a b) else Raise ValueError.

(** [a | b], [a & b], [~a] on boolean arrays. *)
Definition or_ (a b : array2 bool) : result (array2 bool) := elementwise orb a b.
Definition and_ (a b : array2 bool) : result (array2 bool) := elementwise andb a b.
Definition invert (a : array2 bool) : array2 bool := map2d negb a.

(** [a[idx] = v] with a boolean index array: the index must have the shape
    of [a], otherwise numpy raises [IndexError]. *)
Definition setitem_bool {A} (a : array2 A) (idx : array2 bool) (v : A)
  : result (array2 A) :=
  if decide (shape idx = shape a)
  then Ok (zip2d (λ x (b : bool), if b then v else x) a idx)
  else Raise IndexError.


(** [np.zeros_like(a, dtype=bool)]. *)
Definition zeros_like_bool {A} (a : array2 A) : array2 bool :=
  map2d (λ _, false) a.

(** [np.abs(a)], [a < c] and [a > c] on float arrays. *)
Definition abs (a : array2 float) : array2 float := map2d PrimFloat.abs a.
Definition lt_scalar (a : array2 float) (c : float) : array2 bool :=
  map2d (λ x, PrimFloat.ltb x c) a.
Definition gt_scalar (a : array2 float) (c : float) : array2 bool :=
  map2d (λ x, PrimFloat.ltb c x) a.

(** [a.astype(np.uint8)] of a boolean array and [a.astype(bool)] of a
    byte array. *)
Definition bool_to_uint8 (a : array2 bool) : array2 Z :=
  map2d (λ b : bool, if b then 1%Z else 0%Z) a.
Definition uint8_to_bool (a : array2 Z) : array2 bool :=
  map2d (λ z, negb (z =? 0)%Z) a.


End Np.

(** An RGB pixel, one byte per channel; an image is [H×W] pixels. *)
Definition rgb : Type := Z * Z * Z.
Abbreviation rgb_image := (list (list rgb)) (only parsing).

(** A 3×3 homography. *)
Abbreviation homography := (list (list float)) (only parsing).

(** ** Capabilities the interpreter consumes

    The segmenters and the height estimator live in modules the interpreter
    only calls ([human_seg], [robot_seg], [tabletop_seg], [puzzle_seg],
    [utils.height_estimate]); each is an interface here.  Masks are passed
    to and from them by value. *)

(** [seg.process(img)] and [seg.get_mask()]. *)
Class Segmenter (S : Type) := {
  seg_process : S → rgb_image → result S;
  seg_get_mask : S → mask;
}.

(** [seg.update_height_map(height_map)]. *)
Class HeightAware (S : Type) := {
  seg_update_height_map : S → array2 float → S;
}.

(** [puzzle_seg.set_detected_masks([bg, human, robot])]. *)
Class Residual (S : Type) := {
  seg_set_detected_masks : S → list mask → S;
}.

(** [height_estimator.apply(depth)]. *)
Class HeightApply (E : Type) := {
  he_apply : E → array2 float → result (array2 float);
}.

(** [Params]: the bird-eye-view matrix, [None] by default. *)
Record Params := { BEV_trans_mat : option homography }.

(** What [get_layer] can hold in its local [layer]. *)
Inductive layer_value :=
  | LNone
  | LMask (m : mask)
  | LGray (g : array2 Z)
  | LImage (i : rgb_image).



(** The thresholds of [nonROI]: [1e-3] (its nearest binary64 value) and
    [0.5]. *)
Definition depth_eps : float := 0x1.0624dd2f1a9fcp-10%float.
Definition height_ceiling : float := 0.5%float.

(** Product of two [uint8] values. *)
Definition uint8_mul (a b : Z) : Z := ((a * b) mod 256)%Z.

(** [mask[:,:,np.newaxis].astype(np.uint8) * rgb_img]. *)
Definition mask_times_image (m : mask) (img : rgb_image) : result rgb_image :=
  Np.elementwise
    (λ (b : bool) (p : rgb),
       let k := if b then 1%Z else 0%Z in
       let '(r, g, bl) := p in
       (uint8_mul k r, uint8_mul k g, uint8_mul k bl))
    m img.

(** The choices of [get_layer]. *)
Definition layer_choices : list string := ["bg"; "human"; "robot"; "puzzle"].

Section SceneInterpreterV1.

Context {E H R B P : Type}.
Context `{!HeightApply E}.
Context `{!Segmenter H, !HeightAware H}.
Context `{!Segmenter R, !HeightAware R}.
Context `{!Segmenter B}.
Context `{!Segmenter P, !Residual P}.

(** [cv2.warpPerspective(src, M, dsize)], with the border value it takes
    by default made explicit. *)
Variable warpPerspective :
  ∀ A : Type, array2 A → homography → nat * nat → A → result (array2 A).

(** The attributes of a [SceneInterpreterV1] object. *)
Record interp := Interp {
  params : Params;
  height_estimator : E;
  human_seg : H;
  robot_seg : R;
  bg_seg : B;
  puzzle_seg : P;
  rgb_img : option rgb_image;
  depth : option (array2 float);
  height_map : option (array2 float);
  bg_mask : option mask;
  human_mask : option mask;
  robot_mask : option mask;
  puzzle_mask : option mask;
}.

Definition set_human_seg (v : H) (s : interp) : interp :=
  Interp (params s) (height_estimator s) v (robot_seg s) (bg_seg s)
    (puzzle_seg s) (rgb_img s) (depth s) (height_map s) (bg_mask s)
    (human_mask s) (robot_mask s) (puzzle_mask s).
Definition set_robot_seg (v : R) (s : interp) : interp :=
  Interp (params s) (height_estimator s) (human_seg s) v (bg_seg s)
    (puzzle_seg s) (rgb_img s) (depth s) (height_map s) (bg_mask s)
    (human_mask s) (robot_mask s) (puzzle_mask s).
Definition set_bg_seg (v : B) (s : interp) : interp :=
  Interp (params s) (height_estimator s) (human_seg s) (robot_seg s) v
    (puzzle_seg s) (rgb_img s) (depth s) (height_map s) (bg_mask s)
    (human_mask s) (robot_mask s) (puzzle_mask s).
Definition set_puzzle_seg (v : P) (s : interp) : interp :=
  Interp (params s) (height_estimator s) (human_seg s) (robot_seg s)
    (bg_seg s) v (rgb_img s) (depth s) (height_map s) (bg_mask s)
    (human_mask s) (robot_mask s) (puzzle_mask s).
Definition set_rgb_img (v : option rgb_image) (s : interp) : interp :=
  Interp (params s) (height_estimator s) (human_seg s) (robot_seg s)
    (bg_seg s) (puzzle_seg s) v (depth s) (height_map s) (bg_mask s)
    (human_mask s) (robot_mask s) (puzzle_mask s).
Definition set_depth (v : option (array2 float)) (s : interp) : interp :=
  Interp (params s) (height_estimator s) (human_seg s) (robot_seg s)
    (bg_seg s) (puzzle_seg s) (rgb_img s) v (height_map s) (bg_mask s)
    (human_mask s) (robot_mask s) (puzzle_mask s).
Definition set_height_map (v : option (array2 float)) (s : interp) : interp :=
  Interp (params s) (height_estimator s) (human_seg s) (robot_seg s)
    (bg_seg s) (puzzle_seg s) (rgb_img s) (depth s) v (bg_mask s)
    (human_mask s) (robot_mask s) (puzzle_mask s).
Definition set_bg_mask (v : option mask) (s : interp) : interp :=
  Interp (params s) (height_estimator s) (human_seg s) (robot_seg s)
    (bg_seg s) (puzzle_seg s) (rgb_img s) (depth s) (height_map s) v
    (human_mask s) (robot_mask s) (puzzle_mask s).
Definition set_human_mask (v : option mask) (s : interp) : interp :=
  Interp (params s) (height_estimator s) (human_seg s) (robot_seg s)
    (bg_seg s) (puzzle_seg s) (rgb_img s) (depth s) (height_map s)
    (bg_mask s) v (robot_mask s) (puzzle_mask s).
Definition set_robot_mask (v : option mask) (s : interp) : interp :=
  Interp (params s) (height_estimator s) (human_seg s) (robot_seg s)
    (bg_seg s) (puzzle_seg s) (rgb_img s) (depth s) (height_map s)
    (bg_mask s) (human_mask s) v (puzzle_mask s).
Definition set_puzzle_mask (v : option mask) (s : interp) : interp :=
  Interp (params s) (height_estimator s) (human_seg s) (robot_seg s)
    (bg_seg s) (puzzle_seg s) (rgb_img s) (depth s) (height_map s)
    (bg_mask s) (human_mask s) (robot_mask s) v.

(** [SceneInterpreterV1.__init__]: nothing processed, no mask stored. *)
Definition init (human : H) (robot : R) (bg : B) (puzzle : P)
    (heightEstimator : E) (prm : Params) : interp :=
  Interp prm heightEstimator human robot bg puzzle
    None None None None None None None.

(** Reading an attribute that an array operation is applied to: the
    operation raises [TypeError] on [None]. *)
Definition the {A} (f : interp → option A) : M interp A :=
  λ s, match f s with
       | Some a => (Ok a, s)
       | None => (Raise TypeError, s)
       end.

(** [process_depth], scene.py:98-106. *)
Definition process_depth (d : array2 float) : M interp unit :=
  modify (set_depth (Some d)) ;;
  he <- gets height_estimator ;;
  h <- lift (he_apply he d) ;;
  modify (set_height_map (Some (Np.abs h))) ;;
  hm <- the height_map ;;
  modify (λ s, set_human_seg (seg_update_height_map (human_seg s) hm) s) ;;
  modify (λ s, set_robot_seg (seg_update_height_map (robot_seg s) hm) s).

(** [nonROI], scene.py:150-168. *)
Definition nonROI : M interp mask :=
  hm <- gets height_map ;;
  d <- gets depth ;;
  match hm, d with
  | Some hm, Some d =>
      let m := Np.zeros_like_bool d in
      m <- lift (Np.setitem_bool m (Np.lt_scalar (Np.abs d) depth_eps) true) ;;
      m <- lift (Np.setitem_bool m (Np.gt_scalar hm height_ceiling) true) ;;
      ret m
  | _, _ => raise (AssertionError assert_nonROI_inputs)
  end.

(** [process], scene.py:108-136. *)
Definition process (img : rgb_image) : M interp unit :=
  modify (set_rgb_img (Some img)) ;;
  nonROI_mask <- nonROI ;;
  (* human *)
  hs <- gets human_seg ;;
  hs <- lift (seg_process hs img) ;;
  modify (set_human_seg hs) ;;
  modify (set_human_mask (Some (seg_get_mask hs))) ;;
  (* bg *)
  bs <- gets bg_seg ;;
  bs <- lift (seg_process bs img) ;;
  modify (set_bg_seg bs) ;;
  modify (set_bg_mask (Some (seg_get_mask bs))) ;;
  b <- the bg_mask ;;
  b <- lift (Np.or_ b nonROI_mask) ;;
  modify (set_bg_mask (Some b)) ;;
  b <- the bg_mask ;;
  h <- the human_mask ;;
  b <- lift (Np.and_ b (Np.invert h)) ;;
  modify (set_bg_mask (Some b)) ;;
  (* robot *)
  rs <- gets robot_seg ;;
  rs <- lift (seg_process rs img) ;;
  modify (set_robot_seg rs) ;;
  modify (set_robot_mask (Some (seg_get_mask rs))) ;;
  r <- the robot_mask ;;
  h <- the human_mask ;;
  r <- lift (Np.setitem_bool r h false) ;;
  modify (set_robot_mask (Some r)) ;;
  r <- the robot_mask ;;
  b <- the bg_mask ;;
  r <- lift (Np.setitem_bool r b false) ;;
  modify (set_robot_mask (Some r)) ;;
  (* puzzle *)
  b <- the bg_mask ;;
  h <- the human_mask ;;
  r <- the robot_mask ;;
  modify (λ s, set_puzzle_seg (seg_set_detected_masks (puzzle_seg s) [b; h; r]) s) ;;
  ps <- gets puzzle_seg ;;
  ps <- lift (seg_process ps img) ;;
  modify (set_puzzle_seg ps) ;;
  modify (set_puzzle_mask (Some (seg_get_mask ps))).

(** [eval("self." + layer_name + "_mask")] for a name among the choices. *)
Definition eval_mask (layer_name : string) (s : interp) : option mask :=
  if String.eqb layer_name "bg" then bg_mask s
  else if String.eqb layer_name "human" then human_mask s
  else if String.eqb layer_name "robot" then robot_mask s
  else puzzle_mask s.

(** [layer.astype(np.uint8)] followed by [cv2.warpPerspective] to the size
    [(layer.shape[1], layer.shape[0])]. *)
Definition rectify (layer : layer_value) (bev : homography)
  : result layer_value :=
  match layer with
  | LNone => Raise (AttributeError "astype")
  | LMask m =>
      let src := Np.bool_to_uint8 m in
      match warpPerspective Z src bev (Np.width m, Np.height m) 0%Z with
      | Ok g => Ok (LGray g)
      | Raise e => Raise e
      end
  | LGray g =>
      match warpPerspective Z g bev (Np.width g, Np.height g) 0%Z with
      | Ok g => Ok (LGray g)
      | Raise e => Raise e
      end
  | LImage i =>
      match warpPerspective rgb i bev (Np.width i, Np.height i) (0, 0, 0)%Z with
      | Ok i => Ok (LImage i)
      | Raise e => Raise e
      end
  end.

(** [layer.astype(bool)]. *)
Definition astype_bool (layer : layer_value) : result layer_value :=
  match layer with
  | LNone => Raise (AttributeError "astype")
  | LMask m => Ok (LMask m)
  | LGray g => Ok (LMask (Np.uint8_to_bool g))
  | LImage i =>
      Ok (LImage i)
  end.

(** [get_layer], scene.py:171-203. *)
Definition get_layer (layer_name : string) (mask_only BEV_rectify : bool)
  : M interp layer_value :=
  assert (bool_decide (layer_name ∈ layer_choices)) assert_layer_name ;;
  m <- gets (eval_mask layer_name) ;;
  layer <- (if mask_only
            then ret (match m with Some m => LMask m | None => LNone end)
            else
              m <- the (eval_mask layer_name) ;;
              img <- the rgb_img ;;
              i <- lift (mask_times_image m img) ;;
              ret (LImage i)) ;;
  layer <- (if BEV_rectify
            then
              bev <- gets (λ s, BEV_trans_mat (params s)) ;;
              match bev with
              | None => raise (AssertionError assert_BEV_trans_mat)
              | Some bev => lift (rectify layer bev)
              end
            else ret layer) ;;
  layer <- (if mask_only then lift (astype_bool layer) else ret layer) ;;
  ret layer.

End SceneInterpreterV1.

Arguments interp : clear implicits.
Arguments Interp {E H R B P}.
Arguments params {E H R B P}.
Arguments height_estimator {E H R B P}.
Arguments human_seg {E H R B P}.
Arguments robot_seg {E H R B P}.
Arguments bg_seg {E H R B P}.
Arguments puzzle_seg {E H R B P}.
Arguments rgb_img {E H R B P}.
Arguments depth {E H R B P}.
Arguments height_map {E H R B P}.
Arguments bg_mask {E H R B P}.
Arguments human_mask {E H R B P}.
Arguments robot_mask {E H R B P}.
Arguments puzzle_mask {E H R B P}.

(** ** The height estimator *)

(** Modelled from the spec: [HeightEstimator] ([Surveillance.utils.height_estimate])
    is imported by scene.py and not among the sources.  Section 4.1:
    calibration stores the reference depth frame once; the height of a pixel
    is the difference of the reference reading and the current reading (its
    absolute value is taken by [process_depth]); a frame of another size
    fails with [ShapeMismatch], a request before calibration with
    [NotCalibrated]. *)
Record HeightEstimator := { reference_depth : option (array2 float) }.

(** Modelled from the spec: [HeightEstimator.calibrate], which is not among
    the sources; section 4.1: calibration stores the reference frame. *)
Definition HeightEstimator_calibrate (d : array2 float) : HeightEstimator :=
  {| reference_depth := Some d |}.

(** Modelled from the spec: [HeightEstimator.apply], which is not among the
    sources; section 4.1 and the height-map property of section 8: the
    reference reading minus the current reading at every pixel, on frames
    of one shape. *)
Definition HeightEstimator_apply (he : HeightEstimator) (d : array2 float)
  : result (array2 float) :=
  match reference_depth he with
  | None => Raise NotCalibrated
  | Some ref =>
      if decide (Np.shape ref = Np.shape d)
      then Ok (Np.zip2d PrimFloat.sub ref d)
      else Raise ShapeMismatch
  end.

#[export] Instance HeightEstimator_HeightApply : HeightApply HeightEstimator :=
  {| he_apply := HeightEstimator_apply |}.

(** ** Stand-ins for the consumed capabilities

    Used to run the interpreter on concrete frames. *)

(** A colour segmenter: the pixels whose red channel exceeds a threshold.
    It works on a frame of any size. *)
Record color_seg := { red_threshold : Z; color_mask : mask }.

#[export] Instance color_seg_Segmenter : Segmenter color_seg :=
  {| seg_process s img :=
       Ok {| red_threshold := red_threshold s;
             color_mask :=
               Np.map2d (λ p : rgb, (red_threshold s <? fst (fst p))%Z) img |};
     seg_get_mask := color_mask |}.

#[export] Instance color_seg_HeightAware : HeightAware color_seg :=
  {| seg_update_height_map s _ := s |}.

(** A segmenter with a model of fixed size: it reports a fixed mask and
    raises on a frame of another size. *)
Record fixed_seg := { fixed_mask : mask }.

#[export] Instance fixed_seg_Segmenter : Segmenter fixed_seg :=
  {| seg_process s img :=
       if decide (Np.shape img = Np.shape (fixed_mask s)) then Ok s
       else Raise cv2_error;
     seg_get_mask := fixed_mask |}.

#[export] Instance fixed_seg_HeightAware : HeightAware fixed_seg :=
  {| seg_update_height_map s _ := s |}.

(** A residual segmenter: every pixel of the frame that none of the masks
    it was told about claims. *)
Record residual_seg := { detected : list mask; residual : mask }.

Definition residual_of (img : rgb_image) (ms : list mask) : mask :=
  foldr (λ m acc, Np.zip2d (λ (a b : bool), a && negb b) acc m)
        (Np.map2d (λ _, true) img) ms.

#[export] Instance residual_seg_Segmenter : Segmenter residual_seg :=
  {| seg_process s img :=
       Ok {| detected := detected s; residual := residual_of img (detected s) |};
     seg_get_mask := residual |}.

#[export] Instance residual_seg_Residual : Residual residual_seg :=
  {| seg_set_detected_masks s ms := {| detected := ms; residual := residual s |} |}.

(** The warp of the identity homography: a destination pixel samples the
    source at its own coordinates and takes the border value outside. *)
Definition warp_identity (A : Type) (src : array2 A) (_ : homography)
    (dsize : nat * nat) (border : A) : result (array2 A) :=
  Ok ((λ y, (λ x, default border (Np.px src y x)) <$> seq 0 (fst dsize))
        <$> seq 0 (snd dsize)).

Definition identity3 : homography :=
  [[1; 0; 0]; [0; 1; 0]; [0; 0; 1]]%float.

(** A 2×2 frame.  Reference depth 2.0 everywhere; the current depth has one
    pixel without reading (0.0) and one far pixel (3.0); the pixel at the
    top left is red. *)
Module Frame.

Definition reference : array2 float := [[2; 2]; [2; 2]]%float.
Definition current : array2 float := [[2; 0]; [3; 2]]%float.
Definition img : rgb_image :=
  [[(200, 20, 30); (40, 50, 60)]; [(70, 80, 90); (100, 110, 120)]]%Z.

(** A frame of another size. *)
Definition small_img : rgb_image := [[(250, 0, 0)]]%Z.

Definition human_raw : mask := [[true; false]; [false; false]].
Definition bg_raw : mask := [[true; false]; [false; false]].
Definition robot_raw : mask := [[true; true]; [true; true]].

(** A new interpreter, calibrated on the reference depth. *)
Definition fresh (prm : Params)
  : interp HeightEstimator color_seg fixed_seg fixed_seg residual_seg :=
  init {| red_threshold := 128; color_mask := [] |}
       {| fixed_mask := robot_raw |}
       {| fixed_mask := bg_raw |}
       {| detected := []; residual := [] |}
       (HeightEstimator_calibrate reference)
       prm.

(** The interpreter after [process_depth current]. *)
Definition ready (prm : Params) :=
  snd (process_depth current (fresh prm)).

(** The interpreter after [process img] as well. *)
Definition processed (prm : Params) :=
  snd (process img (ready prm)).

Definition no_params : Params := {| BEV_trans_mat := None |}.
Definition bev_params : Params := {| BEV_trans_mat := Some identity3 |}.



End Frame.

(** ** state.py: the estimator's caches *)

Module State.

(** *** Indexing along the first axis *)

(** [a[i]] for an integer [i]: negative indices count from the end. *)
Definition norm_index (n : nat) (i : Z) : result nat :=
  if ((i <? - Z.of_nat n) || (Z.of_nat n <=? i))%Z
  then Raise IndexError
  else Ok (Z.to_nat (if (i <? 0)%Z then i + Z.of_nat n else i)).

(** A bound of a slice [a[lo:hi]]: negative bounds count from the end and
    the result is clipped to [0..n]. *)
Definition slice_bound (n : nat) (i : Z) : nat :=
  Z.to_nat (Z.min (Z.of_nat n) (Z.max 0 (if (i <? 0)%Z then i + Z.of_nat n else i))).

(** [a[lo:hi, :]]. *)
Definition getslice_rows {A} (a : array2 A) (lo hi : Z) : array2 A :=
  let l := slice_bound (length a) lo in
  let h := slice_bound (length a) hi in
  take (h - l) (drop l a).

(** [a[i, :] = new] for a one-dimensional [new]: a value of the row's
    length is copied, a value of length one fills the row, any other
    length raises [ValueError]. *)
Definition setitem_row {A} (a : array2 A) (i : Z) (new : list A)
  : result (array2 A) :=
  match norm_index (length a) i with
  | Raise e => Raise e
  | Ok k =>
      match a !! k with
      | None => Raise IndexError
      | Some row =>
          if decide (length new = length row) then Ok (<[k := new]> a)
          else match new with
               | [x] => Ok (<[k := replicate (length row) x]> a)
               | _ => Raise ValueError
               end
      end
  end.

(** [a[lo:hi, :] = src]: rows of the same shape are copied, a single row
    of the right length fills the slice, anything else raises
    [ValueError].  The right-hand side is read before anything is
    written. *)
Definition setslice_rows {A} (a : array2 A) (lo hi : Z) (src : array2 A)
  : result (array2 A) :=
  let l := slice_bound (length a) lo in
  let h := slice_bound (length a) hi in
  let dst := take (h - l) (drop l a) in
  if decide (Np.shape src = Np.shape dst)
  then Ok (take l a ++ src ++ drop (l + (h - l)) a)
  else match src with
       | [r] =>
           if decide (Np.shape dst = replicate (length dst) (length r))
           then Ok (take l a ++ replicate (length dst) r ++ drop (l + (h - l)) a)
           else Raise ValueError
       | _ => Raise ValueError
       end.

(** [np.empty((r, c))]: an array of [r] rows and [c] columns whose
    entries are whatever the memory holds, given by [garbage]. *)
Definition np_empty {A} (garbage : nat → nat → A) (r c : nat) : array2 A :=
  (λ i, garbage i <$> seq 0 c) <$> seq 0 r.

(** *** [_append_with_number_limit], state.py:106-114 *)

Definition _append_with_number_limit {A} (cache : array2 A) (new : list A)
    (num_limit cur_count : Z) : result (array2 A) :=
  if (cur_count <? num_limit)%Z
  then setitem_row cache cur_count new
  else
    match setslice_rows cache 0 (num_limit - 1)
            (getslice_rows cache 1 num_limit) with
    | Raise e => Raise e
    | Ok cache => setitem_row cache (num_limit - 1) new
    end.

(** The appends of successive [measure] calls on one cache: each passes
    the count of the items appended before it and then increments the
    count (state.py:61-62, 74-75). *)
Fixpoint append_all {A} (cache : array2 A) (num_limit count : Z)
    (items : list (list A)) : result (array2 A * Z) :=
  match items with
  | [] => Ok (cache, count)
  | new :: items =>
      match _append_with_number_limit cache new num_limit count with
      | Raise e => Raise e
      | Ok cache => append_all cache num_limit (count + 1) items
      end
  end.

(** The logical length [min(count, capacity)] and the rows in use. *)
Definition logical_length (num_limit count : Z) : nat :=
  Z.to_nat (Z.min count num_limit).

Definition snapshot {A} (cache : array2 A) (num_limit count : Z) : array2 A :=
  take (logical_length num_limit count) cache.

(** The last [n] elements of a list. *)
Definition last_n {A} (n : nat) (l : list A) : list A :=
  drop (length l - n) l.

(** *** Objects and [__init__], state.py:27-44 and 124-126 *)

(** Python values that occur as arguments and attributes. *)
Inductive value :=
  | VNone
  | VInt (z : Z)
  | VNames (l : list string)
  | VArray (a : array2 float)
  | VMethod (name : string)
  | VOther.

(** What the class bodies define: methods only. *)
Definition Base_dict : list string :=
  ["__init__"; "measure"; "parse"; "update"; "visualize_rt";
   "_append_with_number_limit"].
Definition StateEstimator_dict : list string := ["__init__"; "parse"].

(** [self.name]: the instance dictionary, then the classes of the method
    resolution order; [object] itself defines double-underscore names
    only and is left out. *)
Definition getattr (mro : list (list string)) (name : string)
  : M (gmap string value) value :=
  λ self,
    match self !! name with
    | Some v => (Ok v, self)
    | None =>
        if bool_decide (Exists (λ cls, name ∈ cls) mro)
        then (Ok (VMethod name), self)
        else (Raise (AttributeError name), self)
    end.

(** [self.name = v]. *)
Definition setattr (name : string) (v : value) : M (gmap string value) unit :=
  modify (<[name := v]>).

(** [np.empty((r, c))] on Python values. *)
Definition np_empty_value (garbage : nat → nat → float) (r c : value)
  : result value :=
  match r, c with
  | VInt r, VInt c =>
      if ((r <? 0) || (c <? 0))%Z then Raise ValueError
      else Ok (VArray (np_empty garbage (Z.to_nat r) (Z.to_nat c)))
  | _, _ => Raise TypeError
  end.

(** [Base.__init__] run on an instance of a class with resolution order
    [mro]. *)
Definition Base_init (mro : list (list string)) (garbage : nat → nat → float)
    (signal_number state_number signal_cache_limit state_cache_limit
     signal_names state_names : value) : M (gmap string value) unit :=
  setattr "signal_number" signal_number ;;
  setattr "state_number" state_number ;;
  setattr "signal_cache_limit" signal_cache_limit ;;
  setattr "state_cache_limit" state_cache_limit ;;
  setattr "signal_cache_count" (VInt 0) ;;
  setattr "state_cache_count" (VInt 0) ;;
  v <- getattr mro "state_names" ;;
  setattr "state_names" v ;;
  v <- getattr mro "signal_names" ;;
  setattr "signal_names" v ;;
  r <- getattr mro "signal_number" ;;
  c <- getattr mro "signal_cache_limit" ;;
  a <- lift (np_empty_value garbage r c) ;;
  setattr "signals_cache" a ;;
  r <- getattr mro "state_number" ;;
  c <- getattr mro "state_cache_limit" ;;
  a <- lift (np_empty_value garbage r c) ;;
  setattr "states_cache" a ;;
  setattr "f_idx" VNone.

(** [StateEstimator.__init__]: [super().__init__] with three states; the
    state cache limit is passed for both limits. *)
Definition StateEstimator_init (garbage : nat → nat → float)
    (signal_number signal_cache_limit state_cache_limit signal_names : value)
  : M (gmap string value) unit :=
  Base_init [StateEstimator_dict; Base_dict] garbage
    signal_number (VInt 3) state_cache_limit state_cache_limit
    signal_names (VNames ["Move"; "Progress_Made"; "Puzzle_in_Hand"]).

(** [Cls(args)]: [__init__] on a new instance with an empty dictionary;
    the instance is returned only if [__init__] returns. *)
Definition construct (init : M (gmap string value) unit)
  : result (gmap string value) :=
  match init ∅ with
  | (Ok _, self) => Ok self
  | (Raise e, _) => Raise e
  end.

Definition Base (garbage : nat → nat → float)
    (signal_number state_number signal_cache_limit state_cache_limit
     signal_names state_names : value) : result (gmap string value) :=
  construct (Base_init [Base_dict] garbage signal_number state_number
               signal_cache_limit state_cache_limit signal_names state_names).

Definition StateEstimator (garbage : nat → nat → float)
    (signal_number signal_cache_limit state_cache_limit signal_names : value)
  : result (gmap string value) :=
  construct (StateEstimator_init garbage signal_number signal_cache_limit
               state_cache_limit signal_names).

End State.

(** ** state.py: [measure], [parse] and [update] *)

Module Estimator.

(** An assignment into an array in place: the array is replaced by the
    result, or the exception is raised and the array is as before. *)
Definition assign {A} (f : array2 A → result (array2 A)) : M (array2 A) unit :=
  λ cache,
    match f cache with
    | Ok cache' => (Ok tt, cache')
    | Raise e => (Raise e, cache)
    end.

(** [_append_with_number_limit], state.py:106-114, as the update in place
    of [cache] that it is: in the second branch the rows are shifted before
    the last row is written. *)
Definition append_in_place {A} (new : list A) (num_limit cur_count : Z)
  : M (array2 A) unit :=
  if (cur_count <? num_limit)%Z
  then assign (λ cache, State.setitem_row cache cur_count new)
  else
    assign (λ cache,
              State.setslice_rows cache 0 (num_limit - 1)
                (State.getslice_rows cache 1 num_limit)) ;;
    assign (λ cache, State.setitem_row cache (num_limit - 1) new).

(** The attributes of an estimator that [measure] and [update] use, with
    the types [__init__] gives them. *)
Record estimator := Build {
  signal_number : Z;
  state_number : Z;
  signal_cache_limit : Z;
  state_cache_limit : Z;
  signal_cache_count : Z;
  state_cache_count : Z;
  signals_cache : array2 float;
  states_cache : array2 float;
}.

Definition set_signals_cache (c : array2 float) (self : estimator) : estimator :=
  Build (signal_number self) (state_number self) (signal_cache_limit self)
    (state_cache_limit self) (signal_cache_count self) (state_cache_count self)
    c (states_cache self).
Definition set_states_cache (c : array2 float) (self : estimator) : estimator :=
  Build (signal_number self) (state_number self) (signal_cache_limit self)
    (state_cache_limit self) (signal_cache_count self) (state_cache_count self)
    (signals_cache self) c.
Definition set_signal_cache_count (n : Z) (self : estimator) : estimator :=
  Build (signal_number self) (state_number self) (signal_cache_limit self)
    (state_cache_limit self) n (state_cache_count self)
    (signals_cache self) (states_cache self).
Definition set_state_cache_count (n : Z) (self : estimator) : estimator :=
  Build (signal_number self) (state_number self) (signal_cache_limit self)
    (state_cache_limit self) (signal_cache_count self) n
    (signals_cache self) (states_cache self).

(** An update in place of one of the two caches of the object. *)
Definition on_signals_cache (m : M (array2 float) unit) : M estimator unit :=
  λ self, let (r, c) := m (signals_cache self) in (r, set_signals_cache c self).
Definition on_states_cache (m : M (array2 float) unit) : M estimator unit :=
  λ self, let (r, c) := m (states_cache self) in (r, set_states_cache c self).

(** [update], state.py:70-75. *)
Definition update (cur_signals cur_states : list float) : M estimator unit :=
  limit <- gets signal_cache_limit ;;
  count <- gets signal_cache_count ;;
  on_signals_cache (append_in_place cur_signals limit count) ;;
  limit <- gets state_cache_limit ;;
  count <- gets state_cache_count ;;
  on_states_cache (append_in_place cur_states limit count).

(** How a [measure] call ends: it returns, one of its two assertions fails
    (state.py:54 and state.py:57), or an exception is raised. *)
Inductive outcome :=
  | Measured
  | Failed_signal_size
  | Failed_state_size
  | Raised (e : exn).

(** [measure], state.py:46-62, for a class whose [parse] is given: [parse]
    reads the object and returns an array, returns [None], or raises.  The
    signals are a list or a one-dimensional array. *)
Definition measure (parse : estimator → list float → result (option (list float)))
    (cur_signals : list float) (self : estimator) : outcome * estimator :=
  if negb (Z.of_nat (length cur_signals) =? signal_number self)%Z
  then (Failed_signal_size, self)
  else
    match parse self cur_signals with
    | Raise e => (Raised e, self)
    | Ok None => (Raised (AttributeError "size"), self)
    | Ok (Some cur_states) =>
        if negb (Z.of_nat (length cur_states) =? state_number self)%Z
        then (Failed_state_size, self)
        else
          match (update cur_states cur_signals ;;
                 modify (λ s, set_signal_cache_count (signal_cache_count s + 1) s) ;;
                 modify (λ s, set_state_cache_count (state_cache_count s + 1) s))
                  self with
          | (Ok _, self') => (Measured, self')
          | (Raise e, self') => (Raised e, self')
          end
    end.

(** [Base.parse], state.py:64-68, and [StateEstimator.parse],
    state.py:128-129. *)
Definition Base_parse (_ : estimator) (_ : list float)
  : result (option (list float)) := Raise NotImplementedError.
Definition StateEstimator_parse (_ : estimator) (_ : list float)
  : result (option (list float)) := Ok None.

(** An estimator with two signals and two states and caches of three rows
    of two entries, and a [parse] that negates the signals. *)
Definition sample : estimator :=
  Build 2 2 3 3 0 0 [[0; 0]; [0; 0]; [0; 0]]%float [[0; 0]; [0; 0]; [0; 0]]%float.
Definition negate (_ : estimator) (signals : list float)
  : result (option (list float)) := Ok (Some (PrimFloat.opp <$> signals)).

End Estimator.

(** ** Arrays of any number of axes

    An array as numpy holds it: the extents of its axes and its entries in
    row-major order. *)

Module Nd.

Record t (A : Type) := Make { shape : list nat; data : list A }.
Arguments Make {A} shape data.
Arguments shape {A} _.
Arguments data {A} _.

(** The number of entries of an array of a given shape. *)
Definition prod (s : list nat) : nat := foldr Nat.mul 1 s.

(** The multi-index of a flat index and back, row-major. *)
Fixpoint unravel (s : list nat) (k : nat) : list nat :=
  match s with
  | [] => []
  | _ :: rest => k / prod rest :: unravel rest (k mod prod rest)
  end.

Fixpoint ravel (s idx : list nat) : nat :=
  match s, idx with
  | _ :: rest, i :: idx => i * prod rest + ravel rest idx
  | _, _ => 0
  end.

(** [a.T]: the axes in reverse order.  For two axes the entry [(j, i)] of
    the result is the entry [(i, j)] of [a]; an array of fewer axes is its
    own transpose. *)
Definition transpose {A} (d : A) (a : t A) : t A :=
  match shape a with
  | [r; c] =>
      Make [c; r]
        (concat ((λ j, (λ i, default d (data a !! (i * c + j))) <$> seq 0 r)
                   <$> seq 0 c))
  | s =>
      Make (rev s)
        ((λ k, default d (data a !! ravel s (rev (unravel (rev s) k))))
           <$> seq 0 (prod s))
  end.

(** [a[np.newaxis, :, :]]: a new first axis of extent one; the two slices
    need two axes to be there. *)
Definition newaxis_2 {A} (a : t A) : result (t A) :=
  match shape a with
  | _ :: _ :: _ => Ok (Make (1 :: shape a) (data a))
  | _ => Raise IndexError
  end.

(** [a.squeeze()]: the axes of extent one are dropped. *)
Definition squeeze {A} (a : t A) : t A :=
  Make (filter (λ n, n ≠ 1) (shape a)) (data a).

(** [a.astype(...)], entry by entry. *)
Definition map {A B} (f : A → B) (a : t A) : t B :=
  Make (shape a) (f <$> data a).

(** [a[i, :]]: the index and the slice need two axes to be there. *)
Definition getitem_row {A} (a : t A) (i : Z) : result (t A) :=
  match shape a with
  | n :: m :: rest =>
      match State.norm_index n i with
      | Ok k =>
          let sz := m * prod rest in
          Ok (Make (m :: rest) (take sz (drop (k * sz) (data a))))
      | Raise e => Raise e
      end
  | _ => Raise IndexError
  end.

(** The [2×N] array of the points [(x, y)] whose first coordinates are [xs]
    and whose second coordinates are [ys], and the entries of an [N×2]
    array of points. *)
Definition of_coords {A} (xs ys : list A) : t A :=
  Make [2; length xs] (xs ++ ys).

Definition flatten {A} (pts : list (A * A)) : list A :=
  concat ((λ p, [fst p; snd p]) <$> pts).

End Nd.

(** [m[rows, cols] = v] on a two-dimensional array with two index arrays of
    one shape: every pair of a row index and a column index is normalised
    as an index is, and one pair out of bounds raises [IndexError]. *)
Fixpoint setitem_points {A} (m : array2 A) (idx : list (Z * Z)) (v : A)
  : result (array2 A) :=
  match idx with
  | [] => Ok m
  | (r, c) :: idx =>
      match State.norm_index (Np.height m) r, State.norm_index (Np.width m) c with
      | Ok i, Ok j =>
          match m !! i with
          | Some row => setitem_points (<[i := <[j := v]> row]> m) idx v
          | None => Raise IndexError
          end
      | _, _ => Raise IndexError
      end
  end.

Section TrackerPoints.

(** [cv2.perspectiveTransform(src, M)] and the conversion of a float to an
    integer that [astype(int)] applies to each entry. *)
Variable perspectiveTransform : Nd.t float → homography → result (Nd.t float).
Variable float_to_int : float → Z.

(** The rectification of the points of a tracker in [vis_layer] and
    [vis_puzzles], scene.py:245-248 and 328-331:
    [cv2.perspectiveTransform(tpt.T[np.newaxis, :, :], M).squeeze().T]. *)
Definition rectify_tpt (tpt : Nd.t float) (bev : homography)
  : result (Nd.t float) :=
  and_then (Nd.newaxis_2 (Nd.transpose 0%float tpt)) (λ src,
  and_then (perspectiveTransform src bev) (λ out,
  Ok (Nd.transpose 0%float (Nd.squeeze out)))).

(** The mask of the centroids in [vis_puzzles], scene.py:334-336:
    [centroids = tpt.astype(int)], a mask of zeros of the shape of the
    puzzle mask, and [mask[centroids[1,:], centroids[0,:]] = 1]. *)
Definition centroid_mask (puzzle_seg_mask : mask) (tpt : Nd.t float)
  : result mask :=
  let centroids := Nd.map float_to_int tpt in
  let puzzle_solver_mask := Np.zeros_like_bool puzzle_seg_mask in
  and_then (Nd.getitem_row centroids 1) (λ rows,
  and_then (Nd.getitem_row centroids 0) (λ cols,
  if decide (Nd.shape rows = Nd.shape cols)
  then setitem_points puzzle_solver_mask (zip (Nd.data rows) (Nd.data cols)) true
  else Raise IndexError)).

(** The two steps one after the other, as [vis_puzzles] runs them on the
    points of the puzzle tracker, scene.py:327-336. *)
Definition puzzle_solver_mask (puzzle_seg_mask : mask) (tpt : Nd.t float)
    (bev : homography) : result mask :=
  and_then (rectify_tpt tpt bev) (centroid_mask puzzle_seg_mask).

End TrackerPoints.

(** A perspective transform that maps every point by [f]: what OpenCV
    computes on a [1×N×2] array of [N] points, for [N] at least one. *)
Definition pointwise (f : float * float → float * float)
    (pT : Nd.t float → homography → result (Nd.t float)) (bev : homography)
  : Prop :=
  ∀ pts : list (float * float),
    pts ≠ [] →
    pT (Nd.Make [1; length pts; 2] (Nd.flatten pts)) bev
    = Ok (Nd.Make [1; length pts; 2] (Nd.flatten (f <$> pts))).

(** A stand-in for the transform of a translation by (1, -1). *)
Definition shift_point (p : float * float) : float * float :=
  (PrimFloat.add (fst p) 1, PrimFloat.sub (snd p) 1).

Fixpoint pairs (l : list float) : list (float * float) :=
  match l with
  | x :: y :: l => (x, y) :: pairs l
  | _ => []
  end.

Definition shift_points (src : Nd.t float) (_ : homography)
  : result (Nd.t float) :=
  Ok (Nd.Make (Nd.shape src) (Nd.flatten (shift_point <$> pairs (Nd.data src)))).

(** A stand-in for the conversion to an integer on the small values of the
    examples: the number of the integers 1 to 4 that are not above [x]. *)
Definition small_int (x : float) : Z :=
  Z.of_nat (length (filter (λ k, PrimFloat.leb k x = true) [1; 2; 3; 4]%float)).

(** * Properties *)

(** ** Arrays *)

Section NpFacts.

Context {A B C : Type}.

Lemma shape_map2d (f : A → B) (a : array2 A) :
  Np.shape (Np.map2d f a) = Np.shape a.
Proof.
  unfold Np.shape, Np.map2d. rewrite <- list_fmap_compose.
  apply list_fmap_ext. intros i r _. cbn. apply length_fmap.
Qed.

Lemma px_map2d (f : A → B) (a : array2 A) i j :
  Np.px (Np.map2d f a) i j = f <$> Np.px a i j.
Proof.
  unfold Np.px, Np.map2d. rewrite list_lookup_fmap.
  destruct (a !! i) as [r|]; cbn; [apply list_lookup_fmap | reflexivity].
Qed.

Lemma shape_zip2d (f : A → B → C) (a : array2 A) (b : array2 B) :
  Np.shape a = Np.shape b → Np.shape (Np.zip2d f a b) = Np.shape a.
Proof.
  unfold Np.shape, Np.zip2d. revert b.
  induction a as [|r a IH]; intros [|r' b] Hs; cbn in *; try congruence.
  injection Hs as Hr Hs. f_equal; [|auto].
  rewrite length_zip_with. lia.
Qed.

Lemma px_zip2d (f : A → B → C) (a : array2 A) (b : array2 B) i j :
  Np.px (Np.zip2d f a b) i j =
  x ← Np.px a i j; y ← Np.px b i j; Some (f x y).
Proof.
  unfold Np.px, Np.zip2d. rewrite lookup_zip_with.
  destruct (a !! i) as [r|]; cbn; [|reflexivity].
  destruct (b !! i) as [r'|]; cbn.
  - rewrite lookup_zip_with. reflexivity.
  - destruct (r !! j); reflexivity.
Qed.

(** Arrays of one shape have the same pixels in range. *)
Lemma px_same_shape (a : array2 A) (b : array2 B) i j :
  Np.shape a = Np.shape b → is_Some (Np.px a i j) → is_Some (Np.px b i j).
Proof.
  unfold Np.shape, Np.px. intros Hs [x Hx].
  assert (Hi : (length <$> a) !! i = (length <$> b) !! i) by (rewrite Hs; done).
  rewrite !list_lookup_fmap in Hi.
  destruct (a !! i) as [r|]; [|done].
  destruct (b !! i) as [r'|]; [|done]. cbn in *.
  apply lookup_lt_is_Some. injection Hi as <-.
  apply lookup_lt_is_Some. eauto.
Qed.

End NpFacts.

Lemma elementwise_Ok {A B C} (f : A → B → C) a b c :
  Np.elementwise f a b = Ok c →
  Np.shape a = Np.shape b ∧ c = Np.zip2d f a b.
Proof. unfold Np.elementwise. case_decide; naive_solver. Qed.

Lemma setitem_bool_Ok {A} (a : array2 A) idx v c :
  Np.setitem_bool a idx v = Ok c →
  Np.shape idx = Np.shape a ∧ c = Np.zip2d (λ x (b : bool), if b then v else x) a idx.
Proof. unfold Np.setitem_bool. case_decide; naive_solver. Qed.

Lemma shape_setitem_bool {A} (a : array2 A) idx v c :
  Np.setitem_bool a idx v = Ok c → Np.shape c = Np.shape a.
Proof.
  intros [Hs ->]%setitem_bool_Ok. by apply shape_zip2d.
Qed.

(** A pixel of a mask is true in [a[idx] = False] exactly when it was true
    before and the index is false there. *)
Lemma px_setitem_false (a idx c : mask) i j :
  Np.setitem_bool a idx false = Ok c →
  Np.px c i j = x ← Np.px a i j; y ← Np.px idx i j; Some (x && negb y).
Proof.
  intros [Hs ->]%setitem_bool_Ok. rewrite px_zip2d.
  destruct (Np.px a i j) as [[]|], (Np.px idx i j) as [[]|]; reflexivity.
Qed.

(** Two arrays of one shape with the same pixels are equal. *)
Lemma array2_eq {A} (a b : array2 A) :
  Np.shape a = Np.shape b → (∀ i j, Np.px a i j = Np.px b i j) → a = b.
Proof.
  intros Hs Hpx. apply list_eq. intros i. unfold Np.shape in Hs.
  assert (Hi : (length <$> a) !! i = (length <$> b) !! i) by (rewrite Hs; done).
  rewrite !list_lookup_fmap in Hi.
  destruct (a !! i) as [r|] eqn:Ha, (b !! i) as [r'|] eqn:Hb; try done.
  f_equal. apply list_eq. intros j.
  specialize (Hpx i j). unfold Np.px in Hpx. by rewrite Ha, Hb in Hpx.
Qed.

(** A pixel of [u & ~h]. *)
Lemma px_and_invert (u h b : mask) i j :
  Np.and_ u (Np.invert h) = Ok b →
  Np.px b i j = x ← Np.px u i j; y ← Np.px h i j; Some (x && negb y).
Proof.
  intros [Hs ->]%elementwise_Ok. rewrite px_zip2d. unfold Np.invert.
  rewrite px_map2d.
  destruct (Np.px u i j), (Np.px h i j); reflexivity.
Qed.


(** ** The monad *)

Section MonadFacts.

Context {S A B : Type}.

Lemma bind_Ok (m : M S A) (k : A → M S B) s b s' :
  bind m k s = (Ok b, s') →
  ∃ a s1, m s = (Ok a, s1) ∧ k a s1 = (Ok b, s').
Proof.
  unfold bind. destruct (m s) as [[a|e] s1]; [eauto | discriminate].
Qed.

(** A failing sequence fails in its first part, or its first part
    completes and the rest fails. *)
Lemma bind_Raise (m : M S A) (k : A → M S B) s e s' :
  bind m k s = (Raise e, s') →
  m s = (Raise e, s') ∨ ∃ a s1, m s = (Ok a, s1) ∧ k a s1 = (Raise e, s').
Proof.
  unfold bind. destruct (m s) as [[a|e1] s1]; [eauto | left; congruence].
Qed.

Lemma modify_Ok (f : S → S) s u s' :
  modify f s = (Ok u, s') → s' = f s.
Proof. unfold modify. congruence. Qed.

Lemma gets_Ok (f : S → A) s a s' :
  gets f s = (Ok a, s') → a = f s ∧ s' = s.
Proof. unfold gets. intros [= <- <-]. done. Qed.

Lemma lift_Ok (r : result A) s a s' :
  @lift S A r s = (Ok a, s') → r = Ok a ∧ s' = s.
Proof. unfold lift. intros [= -> <-]. done. Qed.

Lemma ret_Ok (x : A) s a s' :
  @ret S A x s = (Ok a, s') → a = x ∧ s' = s.
Proof. unfold ret. intros [= <- <-]. done. Qed.

Lemma bind_modify (f : S → S) (k : unit → M S B) s :
  bind (modify f) k s = k tt (f s).
Proof. reflexivity. Qed.

Lemma bind_gets (f : S → A) (k : A → M S B) s :
  bind (gets f) k s = k (f s) s.
Proof. reflexivity. Qed.

Lemma bind_lift (r : result A) (k : A → M S B) s a :
  r = Ok a → bind (lift r) k s = k a s.
Proof. intros ->. reflexivity. Qed.

Lemma lift_Raise (r : result A) s e s' :
  @lift S A r s = (Raise e, s') → r = Raise e ∧ s' = s.
Proof. unfold lift. intros [= -> <-]. done. Qed.

End MonadFacts.

(** ** The scene interpreter *)

Section SceneFacts.

Context {E H R B P : Type}.
Context `{!HeightApply E}.
Context `{!Segmenter H, !HeightAware H}.
Context `{!Segmenter R, !HeightAware R}.
Context `{!Segmenter B}.
Context `{!Segmenter P, !Residual P}.

Implicit Types st : interp E H R B P.

Lemma the_Ok {A} (f : interp E H R B P → option A) st a st' :
  the f st = (Ok a, st') → f st = Some a ∧ st' = st.
Proof. unfold the. destruct (f st); [intros [= <- <-] | ]; done. Qed.

(** Splits a completed sequence [Hp] into its first action, inverted into
    [Hm], and the rest. *)
Ltac bind_step_as Hp Hm :=
  let a := fresh "a" in
  let s := fresh "s" in
  apply bind_Ok in Hp as (a & s & Hm & Hp);
  lazymatch type of Hm with
  | modify _ _ = _ => apply modify_Ok in Hm; subst s
  | gets _ _ = _ => apply gets_Ok in Hm as [-> ->]
  | lift _ _ = _ => apply lift_Ok in Hm as [Hm ->]; cbn in Hm
  | the _ _ = _ =>
      apply the_Ok in Hm as [Hm ->]; cbn in Hm;
      first [injection Hm as <- | idtac]
  | _ => idtac
  end.
Ltac bind_step Hp := let Hm := fresh "Hm" in bind_step_as Hp Hm.

(** [nonROI] reads the object and leaves it as it is. *)
Lemma nonROI_state st : snd (nonROI st) = st.
Proof.
  unfold nonROI, bind, gets, lift, ret, raise.
  destruct (height_map st), (depth st); cbn; try reflexivity.
  destruct (Np.setitem_bool _ _ _); cbn; [|reflexivity].
  destruct (Np.setitem_bool _ _ _); reflexivity.
Qed.

(** Its result is a function of the stored depth and height map alone. *)
Lemma nonROI_ext st1 st2 :
  depth st1 = depth st2 → height_map st1 = height_map st2 →
  fst (nonROI st1) = fst (nonROI st2).
Proof.
  intros Hd Hh. unfold nonROI, bind, gets, lift, ret, raise.
  rewrite Hd, Hh.
  destruct (height_map st2), (depth st2); cbn; try reflexivity.
  destruct (Np.setitem_bool _ _ _); cbn; [|reflexivity].
  destruct (Np.setitem_bool _ _ _); reflexivity.
Qed.

Lemma nonROI_Ok st m st' :
  nonROI st = (Ok m, st') → fst (nonROI st) = Ok m ∧ st' = st.
Proof.
  intros Hn. pose proof (nonROI_state st) as Hs.
  rewrite Hn in *. cbn in *. done.
Qed.

(** With a depth frame and a height map of its shape stored, both
    assignments of [nonROI] go through. *)
Lemma nonROI_run st d hm :
  depth st = Some d →
  height_map st = Some hm →
  Np.shape hm = Np.shape d →
  ∃ m1 m,
    Np.setitem_bool (Np.zeros_like_bool d)
      (Np.lt_scalar (Np.abs d) depth_eps) true = Ok m1 ∧
    Np.setitem_bool m1 (Np.gt_scalar hm height_ceiling) true = Ok m ∧
    Np.shape m = Np.shape d ∧
    nonROI st = (Ok m, st).
Proof.
  intros Hd Hh Hs. unfold nonROI, bind, gets, lift, ret.
  rewrite Hd, Hh.
  destruct (Np.setitem_bool (Np.zeros_like_bool d) _ true) as [m1|] eqn:H1;
    cycle 1.
  { unfold Np.setitem_bool, Np.zeros_like_bool, Np.lt_scalar, Np.abs in H1.
    rewrite !shape_map2d in H1. by case_decide. }
  pose proof (shape_setitem_bool _ _ _ _ H1) as Hs1.
  unfold Np.zeros_like_bool in Hs1. rewrite shape_map2d in Hs1.
  destruct (Np.setitem_bool m1 _ true) as [m|] eqn:H2; cycle 1.
  { unfold Np.setitem_bool, Np.gt_scalar in H2.
    rewrite shape_map2d in H2. case_decide; [done|congruence]. }
  pose proof (shape_setitem_bool _ _ _ _ H2) as Hs2.
  exists m1, m. split_and!; [done..|congruence|done].
Qed.

(** What a completed [process] call has done. *)
Lemma process_Ok img st st' :
  process img st = (Ok tt, st') →
  ∃ nonroi hs bs rs ps u b r1 r2,
    fst (nonROI st) = Ok nonroi ∧
    seg_process (human_seg st) img = Ok hs ∧
    seg_process (bg_seg st) img = Ok bs ∧
    seg_process (robot_seg st) img = Ok rs ∧
    Np.or_ (seg_get_mask bs) nonroi = Ok u ∧
    Np.and_ u (Np.invert (seg_get_mask hs)) = Ok b ∧
    Np.setitem_bool (seg_get_mask rs) (seg_get_mask hs) false = Ok r1 ∧
    Np.setitem_bool r1 b false = Ok r2 ∧
    seg_process
      (seg_set_detected_masks (puzzle_seg st) [b; seg_get_mask hs; r2]) img
      = Ok ps ∧
    human_mask st' = Some (seg_get_mask hs) ∧
    bg_mask st' = Some b ∧
    robot_mask st' = Some r2 ∧
    puzzle_mask st' = Some (seg_get_mask ps).
Proof.
  intros Hp. unfold process in Hp.
  bind_step Hp.
  bind_step_as Hp Hn. apply nonROI_Ok in Hn as [Hn ->].
  rewrite (nonROI_ext _ st) in Hn by reflexivity.
  bind_step Hp. bind_step_as Hp Hhs. bind_step Hp. bind_step Hp.
  bind_step Hp. bind_step_as Hp Hbs. bind_step Hp. bind_step Hp.
  bind_step Hp. bind_step_as Hp Hu. bind_step Hp.
  bind_step Hp. bind_step Hp. bind_step_as Hp Hb. bind_step Hp.
  bind_step Hp. bind_step_as Hp Hrs. bind_step Hp. bind_step Hp.
  bind_step Hp. bind_step Hp. bind_step_as Hp Hr1. bind_step Hp.
  bind_step Hp. bind_step Hp. bind_step_as Hp Hr2. bind_step Hp.
  bind_step Hp. bind_step Hp. bind_step Hp.
  bind_step Hp. bind_step Hp. bind_step_as Hp Hps. bind_step Hp.
  apply modify_Ok in Hp. subst st'. cbn.
  eexists _, _, _, _, _, _, _, _, _.
  repeat split; eassumption.
Qed.

Lemma bind_the {A C} (f : interp E H R B P → option A)
    (k : A → M (interp E H R B P) C) st a :
  f st = Some a → bind (the f) k st = k a st.
Proof. intros Hf. unfold bind, the. by rewrite Hf. Qed.

(** [process] completes when the depth and the height map are stored with
    one shape, the four segmenters accept the frame, and the three raw
    masks have the shape of the depth frame. *)
Lemma process_completes img st d hm hs bs rs :
  depth st = Some d →
  height_map st = Some hm →
  Np.shape hm = Np.shape d →
  seg_process (human_seg st) img = Ok hs →
  seg_process (bg_seg st) img = Ok bs →
  seg_process (robot_seg st) img = Ok rs →
  Np.shape (seg_get_mask hs) = Np.shape d →
  Np.shape (seg_get_mask bs) = Np.shape d →
  Np.shape (seg_get_mask rs) = Np.shape d →
  (∀ ps, ∃ ps', seg_process ps img = Ok ps') →
  ∃ st', process img st = (Ok tt, st').
Proof.
  intros Hd Hh Hs Hhs Hbs Hrs Hsh Hsb Hsr Hps.
  destruct (nonROI_run (set_rgb_img (Some img) st) d hm Hd Hh Hs)
    as (m1 & nonroi & _ & _ & Hsn & Hn).
  assert (∃ u, Np.or_ (seg_get_mask bs) nonroi = Ok u ∧ Np.shape u = Np.shape d)
    as (u & Hu & Hsu).
  { unfold Np.or_, Np.elementwise. case_decide; [|congruence].
    eexists. split; [done|]. rewrite shape_zip2d; congruence. }
  assert (∃ b, Np.and_ u (Np.invert (seg_get_mask hs)) = Ok b
               ∧ Np.shape b = Np.shape d) as (b & Hb & Hsb').
  { unfold Np.and_, Np.elementwise, Np.invert. rewrite shape_map2d.
    case_decide; [|congruence].
    eexists. split; [done|].
    rewrite shape_zip2d; [done|]. rewrite shape_map2d. congruence. }
  assert (∃ r1, Np.setitem_bool (seg_get_mask rs) (seg_get_mask hs) false = Ok r1
                ∧ Np.shape r1 = Np.shape d) as (r1 & Hr1 & Hsr1).
  { unfold Np.setitem_bool. case_decide; [|congruence].
    eexists. split; [done|]. rewrite shape_zip2d; congruence. }
  assert (∃ r2, Np.setitem_bool r1 b false = Ok r2) as (r2 & Hr2).
  { unfold Np.setitem_bool. case_decide; [eauto|congruence]. }
  destruct (Hps (seg_set_detected_masks (puzzle_seg st) [b; seg_get_mask hs; r2]))
    as (ps' & Hps').
  eexists. unfold process.
  rewrite bind_modify.
  unfold bind at 1. rewrite Hn.
  rewrite bind_gets, (bind_lift _ _ _ _ Hhs), !bind_modify.
  rewrite bind_gets, (bind_lift _ _ _ _ Hbs), !bind_modify.
  erewrite bind_the by reflexivity.
  rewrite (bind_lift _ _ _ _ Hu), bind_modify.
  erewrite !bind_the by reflexivity.
  rewrite (bind_lift _ _ _ _ Hb), bind_modify.
  rewrite bind_gets, (bind_lift _ _ _ _ Hrs), !bind_modify.
  erewrite !bind_the by reflexivity.
  rewrite (bind_lift _ _ _ _ Hr1), bind_modify.
  erewrite !bind_the by reflexivity.
  rewrite (bind_lift _ _ _ _ Hr2), bind_modify.
  erewrite !bind_the by reflexivity.
  rewrite bind_modify, bind_gets.
  rewrite (bind_lift _ _ _ _ Hps'), bind_modify.
  reflexivity.
Qed.



(** C6: on masks over one pixel grid, clearing the human pixels and then
    the background pixels of the robot mask, clearing them in the other
    order, and the single test [robot & ~human & ~bg] give the same
    mask. *)
Theorem robot_demotion_order (robot human bg : mask) :
  Np.shape human = Np.shape robot →
  Np.shape bg = Np.shape robot →
  ∃ r,
    and_then (Np.setitem_bool robot human false)
             (λ r1, Np.setitem_bool r1 bg false) = Ok r ∧
    and_then (Np.setitem_bool robot bg false)
             (λ r1, Np.setitem_bool r1 human false) = Ok r ∧
    and_then (Np.and_ robot (Np.invert human))
             (λ r1, Np.and_ r1 (Np.invert bg)) = Ok r.
Proof.
  intros Hh Hb.
  destruct (Np.setitem_bool robot human false) as [r1|] eqn:H1;
    [|unfold Np.setitem_bool in H1; by case_decide].
  pose proof (shape_setitem_bool _ _ _ _ H1) as Hs1.
  destruct (Np.setitem_bool r1 bg false) as [r|] eqn:H2;
    [|unfold Np.setitem_bool in H2; case_decide; [done|congruence]].
  pose proof (shape_setitem_bool _ _ _ _ H2) as Hs2.
  destruct (Np.setitem_bool robot bg false) as [q1|] eqn:H3;
    [|unfold Np.setitem_bool in H3; by case_decide].
  pose proof (shape_setitem_bool _ _ _ _ H3) as Hs3.
  destruct (Np.setitem_bool q1 human false) as [q|] eqn:H4;
    [|unfold Np.setitem_bool in H4; case_decide; [done|congruence]].
  pose proof (shape_setitem_bool _ _ _ _ H4) as Hs4.
  destruct (Np.and_ robot (Np.invert human)) as [a1|] eqn:H5; cycle 1.
  { unfold Np.and_, Np.elementwise, Np.invert in H5.
    rewrite shape_map2d in H5. case_decide; [done|congruence]. }
  pose proof H5 as [_ Hs5]%elementwise_Ok.
  apply (f_equal Np.shape) in Hs5. rewrite shape_zip2d in Hs5
    by (unfold Np.invert; rewrite shape_map2d; congruence).
  destruct (Np.and_ a1 (Np.invert bg)) as [a|] eqn:H6; cycle 1.
  { unfold Np.and_, Np.elementwise, Np.invert in H6.
    rewrite shape_map2d in H6. case_decide; [done|congruence]. }
  pose proof H6 as [_ Hs6]%elementwise_Ok.
  apply (f_equal Np.shape) in Hs6. rewrite shape_zip2d in Hs6
    by (unfold Np.invert; rewrite shape_map2d; congruence).
  exists r. cbn. rewrite H2, H4, H6. split_and!; [done| |]; f_equal.
  - apply array2_eq; [congruence|]. intros i j.
    rewrite (px_setitem_false _ _ _ i j H4), (px_setitem_false _ _ _ i j H3).
    rewrite (px_setitem_false _ _ _ i j H2), (px_setitem_false _ _ _ i j H1).
    destruct (Np.px robot i j) as [[]|], (Np.px human i j) as [[]|],
      (Np.px bg i j) as [[]|]; reflexivity.
  - apply array2_eq; [congruence|]. intros i j.
    rewrite (px_and_invert _ _ _ i j H6), (px_and_invert _ _ _ i j H5).
    rewrite (px_setitem_false _ _ _ i j H2), (px_setitem_false _ _ _ i j H1).
    destruct (Np.px robot i j) as [[]|], (Np.px human i j) as [[]|],
      (Np.px bg i j) as [[]|]; reflexivity.
Qed.

(** The robot mask stored by [process] is the raw robot mask demoted
    that way by the stored human and background masks. *)
Lemma process_robot_mask img st st' :
  process img st = (Ok tt, st') →
  ∃ rs human bg robot,
    seg_process (robot_seg st) img = Ok rs ∧
    human_mask st' = Some human ∧
    bg_mask st' = Some bg ∧
    robot_mask st' = Some robot ∧
    and_then (Np.setitem_bool (seg_get_mask rs) human false)
             (λ r1, Np.setitem_bool r1 bg false) = Ok robot.
Proof.
  intros (nonroi & hs & bs & rs & ps & u & b & r1 & r2 & _ & _ & _ & Hrs &
          _ & _ & Hr1 & Hr2 & _ & Hh & Hbg & Hr & _)%process_Ok.
  exists rs, (seg_get_mask hs), b, r2. split_and!; try assumption.
  rewrite Hr1. exact Hr2.
Qed.

(** C3: with a depth frame and a height map of its shape stored, the
    non-ROI mask has the shape of the depth frame and is true at a pixel
    exactly when the magnitude of the depth is below [1e-3] or the height
    exceeds [0.5]; any interpreter holding the same depth and height map
    computes the same mask. *)
Theorem nonROI_rule st d hm :
  depth st = Some d →
  height_map st = Some hm →
  Np.shape hm = Np.shape d →
  ∃ m,
    nonROI st = (Ok m, st) ∧
    Np.shape m = Np.shape d ∧
    (∀ i j x,
       Np.px d i j = Some x →
       ∃ h b,
         Np.px hm i j = Some h ∧
         Np.px m i j = Some b ∧
         (b = true ↔
          PrimFloat.ltb (PrimFloat.abs x) depth_eps = true ∨
          PrimFloat.ltb height_ceiling h = true)) ∧
    (∀ st2 : interp E H R B P,
       depth st2 = Some d → height_map st2 = Some hm →
       nonROI st2 = (Ok m, st2)).
Proof.
  intros Hd Hh Hs.
  destruct (nonROI_run st d hm Hd Hh Hs) as (m1 & m & H1 & H2 & Hsm & Hn).
  exists m. split_and!; [exact Hn|exact Hsm| |].
  - intros i j x Hx.
    destruct (px_same_shape d hm i j) as [h Hpx]; [done|eauto|].
    exists h. eexists. split; [exact Hpx|].
    apply setitem_bool_Ok in H2 as [_ ->], H1 as [_ ->].
    rewrite !px_zip2d.
    unfold Np.zeros_like_bool, Np.gt_scalar, Np.lt_scalar, Np.abs.
    rewrite !px_map2d, Hx, Hpx. cbn. split; [reflexivity|].
    unfold height_ceiling, depth_eps.
    destruct (PrimFloat.ltb _ h), (PrimFloat.ltb (PrimFloat.abs x) _);
      intuition congruence.
  - intros st2 Hd2 Hh2.
    destruct (nonROI_run st2 d hm Hd2 Hh2 Hs) as (m1' & m' & H1' & H2' & _ & Hn').
    congruence.
Qed.

Lemma the_Raise {A} (f : interp E H R B P → option A) st e st' :
  the f st = (Raise e, st') → f st = None ∧ st' = st.
Proof. unfold the. destruct (f st); [done | intros [= <- <-]; done]. Qed.

Lemma nonROI_Raise st e st' :
  nonROI st = (Raise e, st') → fst (nonROI st) = Raise e ∧ st' = st.
Proof.
  intros Hn. pose proof (nonROI_state st) as Hs.
  rewrite Hn in *. cbn in *. done.
Qed.

(** Splits a failed sequence [Hp]: either its first action raised, which
    [tac] has to settle, or the action completed and the rest failed. *)
Ltac raise_step_as Hp Hm tac :=
  let a := fresh "a" in
  let s := fresh "s" in
  apply bind_Raise in Hp as [Hp | (a & s & Hm & Hp)];
  [ lazymatch type of Hp with
    | modify _ _ = _ => unfold modify in Hp; discriminate Hp
    | gets _ _ = _ => unfold gets in Hp; discriminate Hp
    | lift _ _ = _ => apply lift_Raise in Hp as [Hp ->]; cbn in Hp; tac
    | the _ _ = _ =>
        apply the_Raise in Hp as [Hp ->]; cbn in Hp; discriminate Hp
    | nonROI _ = _ => apply nonROI_Raise in Hp as [Hp ->]; tac
    end
  | lazymatch type of Hm with
    | modify _ _ = _ => apply modify_Ok in Hm; subst s
    | gets _ _ = _ => apply gets_Ok in Hm as [-> ->]
    | lift _ _ = _ => apply lift_Ok in Hm as [Hm ->]; cbn in Hm
    | the _ _ = _ =>
        apply the_Ok in Hm as [Hm ->]; cbn in Hm;
        first [injection Hm as <- | idtac]
    | nonROI _ = _ => apply nonROI_Ok in Hm as [Hm ->]
    end ].
Ltac raise_step Hp tac := let Hm := fresh "Hm" in raise_step_as Hp Hm tac.

(** C9, as the code has it: a completed [process] call has stored all
    four masks; a failed call has not touched the puzzle mask, has left
    all four masks as they were when the failure is in [nonROI] or in the
    human segmenter, and has already replaced the human mask by the new
    one when the failure comes later. *)
Theorem process_outcome img st r st' :
  process img st = (r, st') →
  match r with
  | Ok _ =>
      is_Some (human_mask st') ∧ is_Some (bg_mask st') ∧
      is_Some (robot_mask st') ∧ is_Some (puzzle_mask st')
  | Raise _ =>
      puzzle_mask st' = puzzle_mask st ∧
      ((∀ m, fst (nonROI st) ≠ Ok m) ∨
       (∀ hs, seg_process (human_seg st) img ≠ Ok hs) →
       human_mask st' = human_mask st ∧
       bg_mask st' = bg_mask st ∧
       robot_mask st' = robot_mask st) ∧
      (∀ m hs,
         fst (nonROI st) = Ok m →
         seg_process (human_seg st) img = Ok hs →
         human_mask st' = Some (seg_get_mask hs))
  end.
Proof.
  destruct r as [[]|e]; intros Hp.
  { apply process_Ok in Hp
      as (nonroi & hs & bs & rs & ps & u & b & r1 & r2 & _ & _ & _ & _ &
          _ & _ & _ & _ & _ & -> & -> & -> & ->).
    eauto. }
  unfold process in Hp.
  raise_step Hp idtac.
  raise_step_as Hp Hn idtac.
  { rewrite (nonROI_ext _ st) in Hp by reflexivity.
    split_and!; [done|done|]. intros m hs Hm. congruence. }
  rewrite (nonROI_ext _ st) in Hn by reflexivity.
  raise_step Hp idtac.
  raise_step_as Hp Hhs idtac.
  { split_and!; [done|done|]. intros m hs _ Hm. cbn in Hp. congruence. }
  assert (Hlate : ∀ s : interp E H R B P,
            puzzle_mask s = puzzle_mask st →
            (∀ hs, seg_process (human_seg st) img = Ok hs →
                   human_mask s = Some (seg_get_mask hs)) →
            puzzle_mask s = puzzle_mask st ∧
            ((∀ m, fst (nonROI st) ≠ Ok m) ∨
             (∀ hs, seg_process (human_seg st) img ≠ Ok hs) →
             human_mask s = human_mask st ∧
             bg_mask s = bg_mask st ∧
             robot_mask s = robot_mask st) ∧
            (∀ m hs,
               fst (nonROI st) = Ok m →
               seg_process (human_seg st) img = Ok hs →
               human_mask s = Some (seg_get_mask hs))).
  { intros s Hpz Hhm. split_and!; [done| |].
    - intros [Hc|Hc]; [destruct (Hc _ Hn) | destruct (Hc _ Hhs)].
    - intros m hs _ Hhs'. auto. }
  repeat (raise_step Hp
           ltac:(apply Hlate;
                 [ reflexivity
                 | let Hq := fresh in
                   intros ? Hq; rewrite Hhs in Hq; injection Hq as <-;
                   reflexivity ])).
  unfold modify in Hp. discriminate Hp.
Qed.

(** *** The query interface *)

Variable warpPerspective :
  ∀ A : Type, array2 A → homography → nat * nat → A → result (array2 A).



(** C7: a name outside the four choices fails the first assertion of
    [get_layer], whatever the other arguments and the object. *)
Theorem get_layer_unknown_layer st layer_name mask_only BEV_rectify :
  layer_name ∉ layer_choices →
  get_layer warpPerspective layer_name mask_only BEV_rectify st
  = (Raise UnknownLayer, st).
Proof.
  intros Hn. unfold get_layer, bind, assert.
  rewrite bool_decide_eq_false_2 by done. reflexivity.
Qed.


(** *** More on [nonROI] and [process] *)

(** X1: the three outcomes of [nonROI].  Without a stored depth frame or
    height map its assertion fails; with both stored and of different
    shapes the second assignment raises [IndexError]; with both of one
    shape it returns a mask of that shape.  The interpreter is as before
    in each case. *)
Theorem nonROI_outcome st :
  match depth st, height_map st with
  | Some d, Some hm =>
      if decide (Np.shape hm = Np.shape d)
      then ∃ m, nonROI st = (Ok m, st) ∧ Np.shape m = Np.shape d
      else nonROI st = (Raise IndexError, st)
  | _, _ => nonROI st = (Raise (AssertionError assert_nonROI_inputs), st)
  end.
Proof.
  destruct (depth st) as [d|] eqn:Hd, (height_map st) as [hm|] eqn:Hh;
    try (unfold nonROI, bind, gets, raise; rewrite Hd, Hh; reflexivity).
  case_decide as Hs.
  - destruct (nonROI_run st d hm Hd Hh Hs) as (m1 & m & _ & _ & Hsm & Hn).
    eauto.
  - unfold nonROI, bind, gets, lift, ret. rewrite Hd, Hh.
    destruct (Np.setitem_bool (Np.zeros_like_bool d) _ true) as [m1|] eqn:H1;
      cycle 1.
    { unfold Np.setitem_bool, Np.zeros_like_bool, Np.lt_scalar, Np.abs in H1.
      rewrite !shape_map2d in H1. by case_decide. }
    pose proof (shape_setitem_bool _ _ _ _ H1) as Hs1.
    unfold Np.zeros_like_bool in Hs1. rewrite shape_map2d in Hs1.
    unfold Np.setitem_bool, Np.gt_scalar. rewrite shape_map2d.
    case_decide; [congruence|reflexivity].
Qed.

(** X2: [process] needs [process_depth] first.  On an interpreter without
    a stored depth frame or height map it fails with the assertion of
    [nonROI]; the image has been stored, no mask and no segmenter has been
    touched. *)
Theorem process_before_process_depth img st :
  depth st = None ∨ height_map st = None →
  process img st
  = (Raise (AssertionError assert_nonROI_inputs), set_rgb_img (Some img) st).
Proof.
  intros Hnone. unfold process. rewrite bind_modify. unfold bind at 1.
  pose proof (nonROI_outcome (set_rgb_img (Some img) st)) as Hn.
  change (depth (set_rgb_img (Some img) st)) with (depth st) in Hn.
  change (height_map (set_rgb_img (Some img) st)) with (height_map st) in Hn.
  destruct Hnone as [H0|H0]; rewrite H0 in Hn; [|destruct (depth st)];
    by rewrite Hn.
Qed.

(** Splits a completed sequence as [bind_step] does, [nonROI] included. *)
Ltac ok_step Hp :=
  let Hm := fresh "Hm" in
  bind_step_as Hp Hm;
  try (apply nonROI_Ok in Hm as [Hm ->]).

(** X3: whatever its outcome, [process] has stored the image it was given
    and has left the depth frame, the height map, the parameters and the
    height estimator as they were. *)
Theorem process_frame_state img st :
  let st' := snd (process img st) in
  rgb_img st' = Some img ∧
  depth st' = depth st ∧
  height_map st' = height_map st ∧
  params st' = params st ∧
  height_estimator st' = height_estimator st.
Proof.
  cbv zeta. destruct (process img st) as [[[]|e] st'] eqn:Hp; cbn [snd].
  - unfold process in Hp. repeat ok_step Hp.
    apply modify_Ok in Hp. subst st'. done.
  - unfold process in Hp.
    repeat (raise_step Hp ltac:(done)).
    unfold modify in Hp. discriminate Hp.
Qed.






(** *** More on [process_depth] *)

(** X8: a depth frame that the height estimator rejects is kept all the
    same.  [process_depth] fails with the estimator's exception after it
    has replaced the stored depth frame; the height map and the segmenters
    are those of the previous frame.  [nonROI] then pairs the new depth
    with the old height map when their shapes agree and raises
    [IndexError] when they do not. *)
Theorem process_depth_rejected d st e :
  he_apply (height_estimator st) d = Raise e →
  process_depth d st = (Raise e, set_depth (Some d) st) ∧
  ∀ hm,
    height_map st = Some hm →
    if decide (Np.shape hm = Np.shape d)
    then ∃ m, nonROI (set_depth (Some d) st) = (Ok m, set_depth (Some d) st)
    else nonROI (set_depth (Some d) st) = (Raise IndexError, set_depth (Some d) st).
Proof.
  intros He. split.
  - unfold process_depth. rewrite bind_modify, bind_gets.
    unfold bind at 1, lift. cbn. by rewrite He.
  - intros hm Hh.
    pose proof (nonROI_outcome (set_depth (Some d) st)) as Hn.
    change (depth (set_depth (Some d) st)) with (Some d) in Hn.
    change (height_map (set_depth (Some d) st)) with (height_map st) in Hn.
    rewrite Hh in Hn. case_decide; [|done].
    destruct Hn as (m & Hn & _). eauto.
Qed.

(** X9: a depth frame that the height estimator accepts.  [process_depth]
    stores the frame and the absolute values of the estimator's output as
    height map, hands that same map to the human and the robot segmenter,
    and touches neither the image, nor the masks, nor the other two
    segmenters.  [nonROI] then succeeds exactly when the estimator's output
    has the shape of the depth frame. *)
Theorem process_depth_accepted d st h :
  he_apply (height_estimator st) d = Ok h →
  ∃ st',
    process_depth d st = (Ok tt, st') ∧
    depth st' = Some d ∧
    height_map st' = Some (Np.abs h) ∧
    human_seg st' = seg_update_height_map (human_seg st) (Np.abs h) ∧
    robot_seg st' = seg_update_height_map (robot_seg st) (Np.abs h) ∧
    bg_seg st' = bg_seg st ∧
    puzzle_seg st' = puzzle_seg st ∧
    rgb_img st' = rgb_img st ∧
    human_mask st' = human_mask st ∧
    bg_mask st' = bg_mask st ∧
    robot_mask st' = robot_mask st ∧
    puzzle_mask st' = puzzle_mask st ∧
    if decide (Np.shape h = Np.shape d)
    then ∃ m, nonROI st' = (Ok m, st') ∧ Np.shape m = Np.shape d
    else nonROI st' = (Raise IndexError, st').
Proof.
  intros He. eexists. split.
  { unfold process_depth. rewrite bind_modify, bind_gets.
    erewrite bind_lift by exact He. rewrite bind_modify.
    erewrite bind_the by reflexivity. rewrite bind_modify. reflexivity. }
  split_and!; try reflexivity.
  match goal with |- context [nonROI ?s] => pose proof (nonROI_outcome s) as Hn end.
  cbn [depth height_map set_depth set_height_map set_human_seg set_robot_seg]
    in Hn.
  assert (Habs : Np.shape (Np.abs h) = Np.shape h) by apply shape_map2d.
  rewrite Habs in Hn. exact Hn.
Qed.

(** *** More on [get_layer] *)

(** X10: [get_layer] is a query: whatever its arguments and its outcome,
    the interpreter is as before. *)
Theorem get_layer_read_only st layer_name mask_only BEV_rectify :
  snd (get_layer warpPerspective layer_name mask_only BEV_rectify st) = st.
Proof.
  unfold get_layer, bind, assert, gets, the, lift, ret, raise.
  case_bool_decide; cbn; [|done].
  destruct mask_only, BEV_rectify; cbn;
    destruct (eval_mask layer_name st) as [m|]; cbn; try done;
    try (destruct (rgb_img st); cbn; [|done];
         destruct (mask_times_image _ _); cbn; [|done]);
    try done;
    destruct (BEV_trans_mat (params st)); cbn; try done.
  - destruct (warpPerspective Z _ _ _ _); done.
  - destruct (warpPerspective rgb _ _ _ _); done.
Qed.

(** X11: each of the four names selects its own mask: asked for the mask
    only and without rectification, [get_layer] returns the stored
    background mask for "bg", the human mask for "human", the robot mask
    for "robot" and the puzzle mask for "puzzle". *)
Theorem get_layer_mask_by_name st :
  (∀ m, bg_mask st = Some m →
        get_layer warpPerspective "bg" true false st = (Ok (LMask m), st)) ∧
  (∀ m, human_mask st = Some m →
        get_layer warpPerspective "human" true false st = (Ok (LMask m), st)) ∧
  (∀ m, robot_mask st = Some m →
        get_layer warpPerspective "robot" true false st = (Ok (LMask m), st)) ∧
  (∀ m, puzzle_mask st = Some m →
        get_layer warpPerspective "puzzle" true false st = (Ok (LMask m), st)).
Proof.
  split_and!; intros m Hm;
    unfold get_layer, bind, assert, gets, lift, ret;
    rewrite bool_decide_eq_true_2 by (unfold layer_choices; set_solver);
    cbn; unfold eval_mask; cbn; by rewrite Hm.
Qed.

(** X12: the content of a layer.  With the mask of the layer and a
    byte-valued image of its shape stored, [get_layer] without [mask_only]
    and without rectification returns an image of that shape which has the
    pixel of the stored image where the mask is true and a black pixel
    where it is false. *)
Theorem get_layer_content st layer_name (m : mask) (img : rgb_image) :
  layer_name ∈ layer_choices →
  eval_mask layer_name st = Some m →
  rgb_img st = Some img →
  Np.shape m = Np.shape img →
  (∀ i j r g b,
     Np.px img i j = Some (r, g, b) →
     (0 ≤ r < 256 ∧ 0 ≤ g < 256 ∧ 0 ≤ b < 256)%Z) →
  ∃ out,
    get_layer warpPerspective layer_name false false st = (Ok (LImage out), st) ∧
    Np.shape out = Np.shape img ∧
    ∀ i j p,
      Np.px img i j = Some p →
      ∃ c : bool,
        Np.px m i j = Some c ∧
        Np.px out i j = Some (if c then p else (0, 0, 0)%Z).
Proof.
  intros Hname Hm Hi Hs Hbytes.
  unfold get_layer, bind, assert, gets, the, lift, ret.
  rewrite bool_decide_eq_true_2 by done. cbn.
  rewrite Hm, Hi. cbn.
  unfold mask_times_image, Np.elementwise. case_decide; [|done]. cbn.
  eexists. split_and!; [reflexivity| |].
  - rewrite shape_zip2d; done.
  - intros i j p Hp.
    destruct (px_same_shape img m i j) as [c Hc]; [done|eauto|].
    exists c. split; [done|]. rewrite px_zip2d, Hc, Hp. cbn. f_equal.
    destruct p as [[r g] b]. destruct (Hbytes i j r g b Hp) as (Hr & Hg & Hb).
    unfold uint8_mul. destruct c.
    + rewrite !Z.mul_1_l, !Z.mod_small by lia. reflexivity.
    + reflexivity.
Qed.

(** X13: a layer that has no mask yet.  For a name among the choices whose
    mask is not stored, asking for the mask fails with [AttributeError]
    (also with rectification, once a homography is configured), and asking
    for the content fails with [TypeError], with or without
    rectification. *)
Theorem get_layer_without_mask st layer_name :
  layer_name ∈ layer_choices →
  eval_mask layer_name st = None →
  get_layer warpPerspective layer_name true false st
  = (Raise (AttributeError "astype"), st) ∧
  (is_Some (BEV_trans_mat (params st)) →
   get_layer warpPerspective layer_name true true st
   = (Raise (AttributeError "astype"), st)) ∧
  (∀ BEV_rectify,
     get_layer warpPerspective layer_name false BEV_rectify st
     = (Raise TypeError, st)).
Proof.
  intros Hname Hm. split_and!.
  - unfold get_layer, bind, assert, gets, the, lift, ret.
    rewrite bool_decide_eq_true_2 by done. cbn. by rewrite Hm.
  - intros [bev Hbev].
    unfold get_layer, bind, assert, gets, the, lift, ret.
    rewrite bool_decide_eq_true_2 by done. cbn. by rewrite Hm, Hbev.
  - intros rect.
    unfold get_layer, bind, assert, gets, the, lift, ret.
    rewrite bool_decide_eq_true_2 by done. cbn. by rewrite Hm.
Qed.

(** X14: the way through bytes loses nothing.  When the warp gives back
    the byte image of the mask unchanged, the rectified mask that
    [get_layer] returns is the stored mask. *)
Theorem get_layer_rectify_lossless st layer_name (m : mask) bev :
  layer_name ∈ layer_choices →
  eval_mask layer_name st = Some m →
  BEV_trans_mat (params st) = Some bev →
  warpPerspective Z (Np.bool_to_uint8 m) bev (Np.width m, Np.height m) 0%Z
  = Ok (Np.bool_to_uint8 m) →
  get_layer warpPerspective layer_name true true st = (Ok (LMask m), st).
Proof.
  intros Hname Hm Hbev Hwarp.
  unfold get_layer, bind, assert, gets, the, lift, ret.
  rewrite bool_decide_eq_true_2 by done. cbn.
  rewrite Hm, Hbev. cbn. rewrite Hwarp. cbn. do 3 f_equal.
  unfold Np.uint8_to_bool, Np.bool_to_uint8, Np.map2d.
  rewrite <- list_fmap_compose. rewrite <- (list_fmap_id m) at 2.
  apply list_fmap_ext. intros i r _. cbn.
  rewrite <- list_fmap_compose. rewrite <- (list_fmap_id r) at 2.
  apply list_fmap_ext. intros j [] _; reflexivity.
Qed.

End SceneFacts.

(** ** The height map *)

Section HeightFacts.

Context {H R B P : Type}.
Context `{!Segmenter H, !HeightAware H}.
Context `{!Segmenter R, !HeightAware R}.
Context `{!Segmenter B}.
Context `{!Segmenter P, !Residual P}.

(** C5: on an interpreter calibrated with a reference depth frame,
    [process_depth] of a frame of the same shape completes, stores the
    frame, and stores a height map of that shape whose value at every
    pixel is the absolute value of reference depth minus current depth. *)
Theorem process_depth_height_map
    (st : interp HeightEstimator H R B P) (ref cur : array2 float) :
  reference_depth (height_estimator st) = Some ref →
  Np.shape ref = Np.shape cur →
  ∃ st' hm,
    process_depth cur st = (Ok tt, st') ∧
    depth st' = Some cur ∧
    height_map st' = Some hm ∧
    Np.shape hm = Np.shape cur ∧
    ∀ i j r c,
      Np.px ref i j = Some r →
      Np.px cur i j = Some c →
      Np.px hm i j = Some (PrimFloat.abs (PrimFloat.sub r c)).
Proof.
  intros Href Hs.
  unfold process_depth, bind, modify, gets, lift, the. cbn.
  unfold HeightEstimator_apply. rewrite Href.
  case_decide; [|done]. cbn.
  eexists _, _. split_and!; [reflexivity..| |].
  - unfold Np.abs. rewrite shape_map2d, shape_zip2d; done.
  - intros i j r c Hr Hc. unfold Np.abs.
    rewrite px_map2d, px_zip2d, Hr, Hc. reflexivity.
Qed.

End HeightFacts.

(** ** state.py *)

(** C10: whatever the arguments, [Base(...)] and [StateEstimator(...)]
    raise [AttributeError] for [state_names]; the instance the initializer
    was working on has neither a signal cache nor a state cache. *)
Theorem estimator_constructors_raise garbage
    (signal_number state_number signal_cache_limit state_cache_limit
     signal_names state_names : State.value) :
  State.Base garbage signal_number state_number signal_cache_limit
    state_cache_limit signal_names state_names
  = Raise (AttributeError "state_names") ∧
  State.StateEstimator garbage signal_number signal_cache_limit
    state_cache_limit signal_names
  = Raise (AttributeError "state_names") ∧
  (let self :=
     snd (State.Base_init [State.Base_dict] garbage signal_number state_number
            signal_cache_limit state_cache_limit signal_names state_names ∅) in
   self !! "signals_cache" = None ∧ self !! "states_cache" = None) ∧
  (let self :=
     snd (State.StateEstimator_init garbage signal_number signal_cache_limit
            state_cache_limit signal_names ∅) in
   self !! "signals_cache" = None ∧ self !! "states_cache" = None).
Proof. cbv zeta. split_and!; vm_compute; reflexivity. Qed.

(** *** The sliding window of [_append_with_number_limit] *)

Section Window.

Context {A : Type}.
Implicit Types (cache : array2 A) (new : list A) (hist : list (list A)).

Lemma shape_rows cache (D : nat) :
  Forall (λ r, length r = D) cache →
  Np.shape cache = replicate (length cache) D.
Proof.
  unfold Np.shape. induction 1 as [|r cache Hr _ IH]; cbn; [done|].
  by rewrite Hr, IH.
Qed.

(** On a buffer of [C] rows of [D] entries that holds the last [C] of the
    items appended so far in its first rows, one more append of an item
    of [D] entries completes and the buffer holds the last [C] items
    again. *)
Lemma append_step (C D : nat) cache hist new :
  0 < C →
  length cache = C →
  Forall (λ r, length r = D) cache →
  length new = D →
  take (length hist `min` C) cache = State.last_n C hist →
  ∃ cache',
    State._append_with_number_limit cache new
      (Z.of_nat C) (Z.of_nat (length hist)) = Ok cache' ∧
    length cache' = C ∧
    Forall (λ r, length r = D) cache' ∧
    take (length (hist ++ [new]) `min` C) cache'
    = State.last_n C (hist ++ [new]).
Proof.
  intros HC Hlen Hrows Hnew Hinv.
  unfold State._append_with_number_limit, State.last_n in *.
  rewrite length_app. cbn [length].
  destruct (Z.ltb_spec (Z.of_nat (length hist)) (Z.of_nat C)) as [Hlt|Hge].
  - (* a free slot *)
    assert (Hn : length hist < C) by lia.
    unfold State.setitem_row, State.norm_index. rewrite Hlen.
    destruct (Z.ltb_spec (Z.of_nat (length hist)) (- Z.of_nat C)); [lia|].
    destruct (Z.leb_spec (Z.of_nat C) (Z.of_nat (length hist))); [lia|].
    destruct (Z.ltb_spec (Z.of_nat (length hist)) 0); [lia|]. cbn.
    rewrite Nat2Z.id.
    destruct (lookup_lt_is_Some_2 cache (length hist)) as [row Hrow]; [lia|].
    rewrite Hrow.
    assert (length row = D) as Hr.
    { by eapply (proj1 (Forall_lookup _ _) Hrows). }
    case_decide; [|congruence].
    eexists. split; [reflexivity|]. split_and!.
    + by rewrite length_insert.
    + by apply Forall_insert.
    + replace ((length hist + 1) `min` C) with (S (length hist)) by lia.
      erewrite take_S_r by (apply list_lookup_insert_eq; lia).
      rewrite take_insert_ge by lia.
      replace (length hist `min` C) with (length hist) in Hinv by lia.
      rewrite Hinv.
      replace (length hist - C) with 0 by lia.
      replace (length hist + 1 - C) with 0 by lia. reflexivity.
  - (* full: shift and write the last row *)
    assert (Hn : C ≤ length hist) by lia.
    replace (length hist `min` C) with C in Hinv by lia.
    rewrite take_ge in Hinv by lia.
    assert (Hb0 : State.slice_bound C 0 = 0).
    { unfold State.slice_bound. cbn. lia. }
    assert (Hb1 : State.slice_bound C 1 = 1).
    { unfold State.slice_bound. cbn. lia. }
    assert (HbC : State.slice_bound C (Z.of_nat C) = C).
    { unfold State.slice_bound.
      destruct (Z.ltb_spec (Z.of_nat C) 0); lia. }
    assert (HbC1 : State.slice_bound C (Z.of_nat C - 1) = C - 1).
    { unfold State.slice_bound.
      destruct (Z.ltb_spec (Z.of_nat C - 1) 0); lia. }
    unfold State.setslice_rows, State.getslice_rows.
    rewrite Hlen, Hb0, Hb1, HbC, HbC1. rewrite Nat.sub_0_r, drop_0. cbn [take].
    rewrite (take_ge (drop 1 cache)) by (rewrite length_drop; lia).
    rewrite (shape_rows (drop 1 cache) D) by by apply Forall_drop.
    rewrite (shape_rows (take (C - 1) cache) D) by by apply Forall_take.
    rewrite length_drop, length_take, Hlen.
    replace ((C - 1) `min` C) with (C - 1) by lia.
    case_decide; [|done]. rewrite take_0. cbn [app Nat.add].
    unfold State.setitem_row, State.norm_index.
    rewrite length_app, !length_drop, Hlen.
    replace (C - 1 + (C - (C - 1))) with C by lia.
    destruct (Z.ltb_spec (Z.of_nat C - 1) (- Z.of_nat C)); [lia|].
    destruct (Z.leb_spec (Z.of_nat C) (Z.of_nat C - 1)); [lia|].
    destruct (Z.ltb_spec (Z.of_nat C - 1) 0); [lia|]. cbn.
    replace (Z.to_nat (Z.of_nat C - 1)) with (C - 1) by lia.
    destruct (lookup_lt_is_Some_2 (drop 1 cache ++ drop (C - 1) cache) (C - 1))
      as [row Hrow].
    { rewrite length_app, !length_drop. lia. }
    rewrite Hrow.
    assert (Hall : Forall (λ r, length r = D) (drop 1 cache ++ drop (C - 1) cache)).
    { apply Forall_app. split; by apply Forall_drop. }
    assert (length row = D) as Hr.
    { by eapply (proj1 (Forall_lookup _ _) Hall). }
    case_decide; [|congruence].
    eexists. split; [reflexivity|]. split_and!.
    + rewrite length_insert, length_app, !length_drop. lia.
    + by apply Forall_insert.
    + replace ((length hist + 1) `min` C) with C by lia.
      rewrite take_ge
        by (rewrite length_insert, length_app, !length_drop; lia).
      replace (C - 1) with (length (drop 1 cache) + 0) at 1
        by (rewrite length_drop; lia).
      rewrite insert_app_r.
      assert (∃ x, drop (C - 1) cache = [x]) as [x ->].
      { destruct (drop (C - 1) cache) as [|x [|y t]] eqn:Hd;
          apply (f_equal length) in Hd; rewrite length_drop in Hd;
          cbn in Hd; [lia|eauto|lia]. }
      cbn. rewrite Hinv, drop_drop, drop_app_le by lia.
      f_equal. f_equal. lia.
Qed.

(** Appending a sequence of items of [D] entries to such a buffer, the
    counts running on as in [measure]: every append completes and the
    buffer ends with the last [C] of all the items, oldest first, in its
    first [min(count, C)] rows. *)
Lemma append_all_window (C D : nat) items : ∀ cache hist,
  0 < C →
  length cache = C →
  Forall (λ r, length r = D) cache →
  Forall (λ x, length x = D) items →
  take (length hist `min` C) cache = State.last_n C hist →
  ∃ cache',
    State.append_all cache (Z.of_nat C) (Z.of_nat (length hist)) items
    = Ok (cache', Z.of_nat (length (hist ++ items))) ∧
    length cache' = C ∧
    State.snapshot cache' (Z.of_nat C) (Z.of_nat (length (hist ++ items)))
    = State.last_n C (hist ++ items).
Proof.
  induction items as [|new items IH]; intros cache hist HC Hlen Hrows Hit Hinv.
  - exists cache. rewrite app_nil_r. cbn. split_and!; [done..|].
    unfold State.snapshot, State.logical_length.
    replace (Z.to_nat (Z.of_nat (length hist) `min` Z.of_nat C))
      with (length hist `min` C) by lia.
    done.
  - apply Forall_cons in Hit as [Hnew Hit].
    destruct (append_step C D cache hist new HC Hlen Hrows Hnew Hinv)
      as (cache1 & Hstep & Hlen1 & Hrows1 & Hinv1).
    cbn [State.append_all]. rewrite Hstep.
    destruct (IH cache1 (hist ++ [new]) HC Hlen1 Hrows1 Hit Hinv1)
      as (cache' & Hrun & Hlen' & Hsnap).
    rewrite <- app_assoc in Hrun, Hsnap. cbn in Hrun, Hsnap.
    exists cache'. split_and!; [|done..].
    rewrite <- Hrun. f_equal. rewrite length_app. cbn. lia.
Qed.

End Window.

(** A buffer of [C] rows of [D] entries, whatever it holds at first, is a
    sliding window over the items appended to it. *)
Lemma append_all_fresh {A} (C D : nat) (cache : array2 A) (items : list (list A)) :
  0 < C →
  length cache = C →
  Forall (λ r, length r = D) cache →
  Forall (λ x, length x = D) items →
  ∃ cache',
    State.append_all cache (Z.of_nat C) 0 items
    = Ok (cache', Z.of_nat (length items)) ∧
    length (State.snapshot cache' (Z.of_nat C) (Z.of_nat (length items)))
    = length items `min` C ∧
    State.snapshot cache' (Z.of_nat C) (Z.of_nat (length items))
    = State.last_n C items.
Proof.
  intros HC Hlen Hrows Hit.
  destruct (append_all_window C D items cache [] HC Hlen Hrows Hit)
    as (cache' & Hrun & Hlen' & Hsnap); [by rewrite take_0|].
  exists cache'. cbn in *. split_and!; [done| |done].
  unfold State.snapshot, State.logical_length. rewrite length_take. lia.
Qed.


(** The same appends on a buffer of three rows of one entry leave C, D, E. *)
Lemma append_scenario garbage (a b c d e : float) :
  State.append_all (State.np_empty garbage 3 1) 3 0 [[a]; [b]; [c]; [d]; [e]]
  = Ok ([[c]; [d]; [e]], 5%Z).
Proof. reflexivity. Qed.

(** ** The stand-ins meet the contracts *)


(** ** Runs on the sample frame *)


Lemma nonROI_rule_witness :
  ∃ m,
    nonROI (Frame.ready Frame.no_params) = (Ok m, Frame.ready Frame.no_params) ∧
    Np.shape m = Np.shape Frame.current ∧
    (∀ i j x,
       Np.px Frame.current i j = Some x →
       ∃ h b,
         Np.px [[0; 2]; [1; 0]]%float i j = Some h ∧
         Np.px m i j = Some b ∧
         (b = true ↔
          PrimFloat.ltb (PrimFloat.abs x) depth_eps = true ∨
          PrimFloat.ltb height_ceiling h = true)) ∧
    (∀ st2 : interp HeightEstimator color_seg fixed_seg fixed_seg residual_seg,
       depth st2 = Some Frame.current →
       height_map st2 = Some [[0; 2]; [1; 0]]%float →
       nonROI st2 = (Ok m, st2)).
Proof.
  apply (nonROI_rule (Frame.ready Frame.no_params) Frame.current
           [[0; 2]; [1; 0]]%float); vm_compute; reflexivity.
Defined.


Lemma process_depth_height_map_witness :
  ∃ st' hm,
    process_depth Frame.current (Frame.fresh Frame.no_params) = (Ok tt, st') ∧
    depth st' = Some Frame.current ∧
    height_map st' = Some hm ∧
    Np.shape hm = Np.shape Frame.current ∧
    ∀ i j r c,
      Np.px Frame.reference i j = Some r →
      Np.px Frame.current i j = Some c →
      Np.px hm i j = Some (PrimFloat.abs (PrimFloat.sub r c)).
Proof.
  apply (process_depth_height_map (Frame.fresh Frame.no_params)
           Frame.reference Frame.current); reflexivity.
Defined.

Lemma robot_demotion_order_witness :
  ∃ r,
    and_then (Np.setitem_bool Frame.robot_raw Frame.human_raw false)
             (λ r1, Np.setitem_bool r1 [[false; true]; [true; false]] false)
    = Ok r ∧
    and_then (Np.setitem_bool Frame.robot_raw [[false; true]; [true; false]] false)
             (λ r1, Np.setitem_bool r1 Frame.human_raw false)
    = Ok r ∧
    and_then (Np.and_ Frame.robot_raw (Np.invert Frame.human_raw))
             (λ r1, Np.and_ r1 (Np.invert [[false; true]; [true; false]]))
    = Ok r.
Proof.
  apply (robot_demotion_order Frame.robot_raw Frame.human_raw
           [[false; true]; [true; false]]); reflexivity.
Defined.

Lemma get_layer_unknown_layer_witness :
  get_layer warp_identity "banana" true false (Frame.processed Frame.no_params)
  = (Raise UnknownLayer, Frame.processed Frame.no_params).
Proof.
  apply (get_layer_unknown_layer warp_identity
           (Frame.processed Frame.no_params) "banana" true false).
  apply (bool_decide_unpack _). vm_compute. exact I.
Defined.


Lemma process_outcome_witness :
  puzzle_mask (snd (process Frame.small_img (Frame.processed Frame.no_params)))
  = puzzle_mask (Frame.processed Frame.no_params).
Proof.
  pose proof (process_outcome Frame.small_img (Frame.processed Frame.no_params)
                (Raise cv2_error)
                (snd (process Frame.small_img (Frame.processed Frame.no_params))))
    as Hout.
  cbv beta iota in Hout. apply Hout. vm_compute. reflexivity.
Defined.

(** ** Where the specification and the code part *)


(** C9: after one processed frame, a frame of another size makes the
    background segmenter raise; the call fails and the stored human mask
    is the one of the new frame, next to the three masks of the previous
    frame. *)
Lemma process_atomic_counterexample :
  let st := Frame.processed Frame.no_params in
  let st' := snd (process Frame.small_img st) in
  fst (process Frame.small_img st) = Raise cv2_error ∧
  human_mask st = Some [[true; false]; [false; false]] ∧
  human_mask st' = Some [[true]] ∧
  bg_mask st' = bg_mask st ∧
  robot_mask st' = robot_mask st ∧
  puzzle_mask st' = puzzle_mask st ∧
  ¬ (human_mask st' = human_mask st).
Proof.
  cbv zeta. split_and!; [vm_compute; reflexivity..|].
  vm_compute. discriminate.
Qed.

(** ** More on state.py *)

Section AppendFacts.

Context {A : Type}.
Implicit Types (cache : array2 A) (new : list A).

Lemma shape_setitem_row cache i new cache' :
  State.setitem_row cache i new = Ok cache' → Np.shape cache' = Np.shape cache.
Proof.
  unfold State.setitem_row, Np.shape.
  destruct (State.norm_index _ _) as [k|]; [|done].
  destruct (cache !! k) as [row|] eqn:Hrow; [|done].
  assert (Hk : (length <$> cache) !! k = Some (length row))
    by by rewrite list_lookup_fmap, Hrow.
  case_decide as Hlen.
  - intros [= <-]. rewrite list_fmap_insert, Hlen. by apply list_insert_id.
  - destruct new as [|x [|]]; try done.
    intros [= <-]. rewrite list_fmap_insert, length_replicate.
    by apply list_insert_id.
Qed.

Lemma shape_setslice_rows cache lo hi src cache' :
  State.setslice_rows cache lo hi src = Ok cache' →
  Np.shape cache' = Np.shape cache.
Proof.
  unfold State.setslice_rows.
  set (l := State.slice_bound (length cache) lo).
  set (h := State.slice_bound (length cache) hi).
  assert (Hsplit : Np.shape cache
                   = Np.shape (take l cache)
                     ++ Np.shape (take (h - l) (drop l cache))
                     ++ Np.shape (drop (l + (h - l)) cache)).
  { unfold Np.shape. rewrite <- !fmap_app, app_assoc, take_take_drop.
    by rewrite take_drop. }
  case_decide as Hs.
  - intros [= <-]. rewrite Hsplit, <- Hs. unfold Np.shape. by rewrite !fmap_app.
  - destruct src as [|r [|]]; try done. case_decide as Hr; [|done].
    intros [= <-]. rewrite Hsplit, Hr. unfold Np.shape.
    by rewrite !fmap_app, fmap_replicate.
Qed.

(** X15: an append never grows, shrinks or reshapes the buffer: whenever
    [_append_with_number_limit] completes, on any array and with any limit
    and count, the array has the rows and the row lengths it had. *)
Theorem append_preserves_shape cache new num_limit cur_count cache' :
  State._append_with_number_limit cache new num_limit cur_count = Ok cache' →
  Np.shape cache' = Np.shape cache.
Proof.
  unfold State._append_with_number_limit.
  destruct (cur_count <? num_limit)%Z.
  - apply shape_setitem_row.
  - destruct (State.setslice_rows _ _ _ _) as [c1|] eqn:H1; [|done].
    intros H2%shape_setitem_row. apply shape_setslice_rows in H1. congruence.
Qed.

(** X16: the sliding window.  On a buffer of [C] rows of [D] entries,
    whatever it holds at first, a sequence of appends of items of [D]
    entries, the counts running from 0, completes; the buffer keeps its
    shape, and its first [min(N, C)] rows are the last [C] of the [N]
    items, oldest first. *)
Theorem append_sliding_window (C D : nat) cache (items : list (list A)) :
  0 < C →
  length cache = C →
  Forall (λ r, length r = D) cache →
  Forall (λ x, length x = D) items →
  ∃ cache',
    State.append_all cache (Z.of_nat C) 0 items
    = Ok (cache', Z.of_nat (length items)) ∧
    length cache' = C ∧
    State.logical_length (Z.of_nat C) (Z.of_nat (length items))
    = length items `min` C ∧
    State.snapshot cache' (Z.of_nat C) (Z.of_nat (length items))
    = drop (length items - C) items.
Proof.
  intros HC Hlen Hrows Hit.
  destruct (append_all_window C D items cache [] HC Hlen Hrows Hit)
    as (cache' & Hrun & Hlen' & Hsnap); [by rewrite take_0|].
  exists cache'. cbn in *. split_and!; [done..| |done].
  unfold State.logical_length. lia.
Qed.

(** X17: the cache as [Base.__init__] allocates it, one row per signal and
    one column per cached item, against the append, which takes one row
    per cached item.  With [D] signals and a limit of [C], an item of [D]
    entries cannot be appended when [D] is neither 1 nor [C]: the first
    append raises [ValueError].  With one signal and a limit above one, the
    first append fills the row with the item and the second raises
    [IndexError]. *)
Theorem append_on_init_cache (garbage : nat → nat → A) (D C : nat) :
  0 < D → 0 < C →
  (∀ new, length new = D → D ≠ C → D ≠ 1 →
     State._append_with_number_limit (State.np_empty garbage D C) new
       (Z.of_nat C) 0
     = Raise ValueError) ∧
  (∀ x y rest, D = 1 → 1 < C →
     State._append_with_number_limit (State.np_empty garbage D C) [x]
       (Z.of_nat C) 0
     = Ok [replicate C x] ∧
     State.append_all (State.np_empty garbage D C) (Z.of_nat C) 0
       ([x] :: [y] :: rest)
     = Raise IndexError).
Proof.
  intros HD HC.
  assert (Hrow0 : ∀ n, 0 < n →
            State.np_empty garbage n C !! 0 = Some (garbage 0 <$> seq 0 C)).
  { intros [|n] Hn; [lia|]. reflexivity. }
  assert (Hlen : ∀ n, length (State.np_empty garbage n C) = n).
  { intros n. unfold State.np_empty. by rewrite length_fmap, length_seq. }
  split.
  - intros new Hnew HDC HD1.
    unfold State._append_with_number_limit.
    destruct (Z.ltb_spec 0 (Z.of_nat C)); [|lia].
    unfold State.setitem_row, State.norm_index. rewrite Hlen.
    destruct (Z.ltb_spec 0 (- Z.of_nat D)); [lia|].
    destruct (Z.leb_spec (Z.of_nat D) 0); [lia|]. cbn.
    change (Z.to_nat 0) with 0.
    rewrite (Hrow0 D HD), length_fmap, length_seq.
    case_decide; [congruence|].
    destruct new as [|x [|]]; cbn in *; try done.
  - intros x y rest -> HC1.
    assert (Hfirst : State._append_with_number_limit
                       (State.np_empty garbage 1 C) [x] (Z.of_nat C) 0
                     = Ok [replicate C x]).
    { unfold State._append_with_number_limit.
      destruct (Z.ltb_spec 0 (Z.of_nat C)); [|lia].
      unfold State.setitem_row, State.norm_index. rewrite Hlen.
      change (((0 <? - Z.of_nat 1) || (Z.of_nat 1 <=? 0))%Z) with false.
      cbn [Z.ltb Z.compare Z.to_nat]. change (Z.to_nat 0) with 0.
      rewrite (Hrow0 1) by lia. rewrite length_fmap, length_seq.
      case_decide as Hc; [cbn in Hc; lia|]. reflexivity. }
    split; [exact Hfirst|].
    cbn [State.append_all]. rewrite Hfirst.
    unfold State._append_with_number_limit.
    destruct (Z.ltb_spec (0 + 1) (Z.of_nat C)); [|lia].
    reflexivity.
Qed.

(** The in-place append completes exactly when the function of the cache
    does, with the same array. *)
Lemma append_in_place_pure cache new num_limit cur_count :
  match State._append_with_number_limit cache new num_limit cur_count with
  | Ok cache' =>
      Estimator.append_in_place new num_limit cur_count cache = (Ok tt, cache')
  | Raise e =>
      fst (Estimator.append_in_place new num_limit cur_count cache) = Raise e
  end.
Proof.
  unfold State._append_with_number_limit, Estimator.append_in_place.
  destruct (cur_count <? num_limit)%Z.
  - unfold Estimator.assign. by destruct (State.setitem_row _ _ _).
  - unfold bind, Estimator.assign.
    destruct (State.setslice_rows _ _ _ _) as [c1|]; [|done].
    by destruct (State.setitem_row c1 _ _).
Qed.

(** X18: what a failed append leaves behind.  On a buffer of [C] rows of
    [D] entries, an item whose length is neither [D] nor 1 is refused with
    [ValueError].  While the buffer is not full (count below [C]) it is
    left as it was; once it is full, the rows have been shifted before the
    item is refused: the oldest row is gone and the newest row is there
    twice. *)
Theorem append_refused_item (C D : nat) cache new :
  0 < C →
  length cache = C →
  Forall (λ r, length r = D) cache →
  length new ≠ D →
  length new ≠ 1 →
  (∀ count : Z, (0 ≤ count < Z.of_nat C)%Z →
     Estimator.append_in_place new (Z.of_nat C) count cache
     = (Raise ValueError, cache)) ∧
  (∀ count : Z, (Z.of_nat C ≤ count)%Z →
     Estimator.append_in_place new (Z.of_nat C) count cache
     = (Raise ValueError, drop 1 cache ++ drop (C - 1) cache)).
Proof.
  intros HC Hlen Hrows HnD Hn1.
  assert (Hrefuse : ∀ c (k : nat), length c = C → k < C →
            Forall (λ r, length r = D) c →
            State.setitem_row c (Z.of_nat k) new = Raise ValueError).
  { intros c k Hc Hk Hr. unfold State.setitem_row, State.norm_index.
    rewrite Hc.
    destruct (Z.ltb_spec (Z.of_nat k) (- Z.of_nat C)); [lia|].
    destruct (Z.leb_spec (Z.of_nat C) (Z.of_nat k)); [lia|].
    destruct (Z.ltb_spec (Z.of_nat k) 0); [lia|]. cbn. rewrite Nat2Z.id.
    destruct (lookup_lt_is_Some_2 c k) as [row Hrow]; [lia|]. rewrite Hrow.
    assert (length row = D) by by eapply (proj1 (Forall_lookup _ _) Hr).
    case_decide; [congruence|].
    destruct new as [|x [|]]; cbn in *; done. }
  split.
  - intros count Hcount. unfold Estimator.append_in_place.
    destruct (Z.ltb_spec count (Z.of_nat C)); [|lia].
    unfold Estimator.assign.
    replace count with (Z.of_nat (Z.to_nat count)) by lia.
    rewrite Hrefuse; [done..|lia|done].
  - intros count Hcount. unfold Estimator.append_in_place.
    destruct (Z.ltb_spec count (Z.of_nat C)); [lia|].
    unfold bind, Estimator.assign at 1.
    assert (Hshift : State.setslice_rows cache 0 (Z.of_nat C - 1)
                       (State.getslice_rows cache 1 (Z.of_nat C))
                     = Ok (drop 1 cache ++ drop (C - 1) cache)).
    { assert (Hb0 : State.slice_bound C 0 = 0).
      { unfold State.slice_bound. cbn. lia. }
      assert (Hb1 : State.slice_bound C 1 = 1).
      { unfold State.slice_bound. cbn. lia. }
      assert (HbC : State.slice_bound C (Z.of_nat C) = C).
      { unfold State.slice_bound.
        destruct (Z.ltb_spec (Z.of_nat C) 0); lia. }
      assert (HbC1 : State.slice_bound C (Z.of_nat C - 1) = C - 1).
      { unfold State.slice_bound.
        destruct (Z.ltb_spec (Z.of_nat C - 1) 0); lia. }
      unfold State.setslice_rows, State.getslice_rows.
      rewrite Hlen, Hb0, Hb1, HbC, HbC1. rewrite Nat.sub_0_r, drop_0.
      rewrite (take_ge (drop 1 cache)) by (rewrite length_drop; lia).
      rewrite (shape_rows (drop 1 cache) D) by by apply Forall_drop.
      rewrite (shape_rows (take (C - 1) cache) D) by by apply Forall_take.
      rewrite length_drop, length_take, Hlen.
      replace ((C - 1) `min` C) with (C - 1) by lia.
      case_decide; [|done]. by rewrite take_0. }
    rewrite Hshift. unfold Estimator.assign.
    replace (Z.of_nat C - 1)%Z with (Z.of_nat (C - 1)) by lia.
    rewrite Hrefuse; [done| |lia|].
    + rewrite length_app, !length_drop. lia.
    + apply Forall_app. split; by apply Forall_drop.
Qed.

End AppendFacts.

(** X19: neither class of the file can measure.  [measure] of [Base]
    fails its size assertion or raises [NotImplementedError] from [parse];
    [measure] of [StateEstimator], whose [parse] returns [None], fails the
    assertion or raises [AttributeError] when it reads the size of the
    states.  The object is as it was in either case. *)
Theorem measure_never_completes self (cur_signals : list float) :
  Estimator.measure Estimator.Base_parse cur_signals self
  = (if (Z.of_nat (length cur_signals) =? Estimator.signal_number self)%Z
     then Estimator.Raised NotImplementedError
     else Estimator.Failed_signal_size,
     self) ∧
  Estimator.measure Estimator.StateEstimator_parse cur_signals self
  = (if (Z.of_nat (length cur_signals) =? Estimator.signal_number self)%Z
     then Estimator.Raised (AttributeError "size")
     else Estimator.Failed_signal_size,
     self).
Proof.
  unfold Estimator.measure, Estimator.Base_parse, Estimator.StateEstimator_parse.
  by destruct (_ =? _)%Z.
Qed.

(** X20: what [measure] does with a working [parse].  It never changes the
    numbers and the limits.  When it returns, the signals and the parsed
    states had the declared sizes, both counts have advanced by one, and
    the arguments of [update] were passed in the other order: the parsed
    states have been appended to the signal cache and the signals to the
    state cache.  When it does not return, both counts are as before. *)
Theorem measure_outcome parse (cur_signals : list float) self :
  let o := fst (Estimator.measure parse cur_signals self) in
  let self' := snd (Estimator.measure parse cur_signals self) in
  Estimator.signal_number self' = Estimator.signal_number self ∧
  Estimator.state_number self' = Estimator.state_number self ∧
  Estimator.signal_cache_limit self' = Estimator.signal_cache_limit self ∧
  Estimator.state_cache_limit self' = Estimator.state_cache_limit self ∧
  match o with
  | Estimator.Measured =>
      ∃ cur_states,
        parse self cur_signals = Ok (Some cur_states) ∧
        Z.of_nat (length cur_signals) = Estimator.signal_number self ∧
        Z.of_nat (length cur_states) = Estimator.state_number self ∧
        State._append_with_number_limit (Estimator.signals_cache self)
          cur_states (Estimator.signal_cache_limit self)
          (Estimator.signal_cache_count self)
        = Ok (Estimator.signals_cache self') ∧
        State._append_with_number_limit (Estimator.states_cache self)
          cur_signals (Estimator.state_cache_limit self)
          (Estimator.state_cache_count self)
        = Ok (Estimator.states_cache self') ∧
        Estimator.signal_cache_count self'
        = (Estimator.signal_cache_count self + 1)%Z ∧
        Estimator.state_cache_count self'
        = (Estimator.state_cache_count self + 1)%Z
  | _ =>
      Estimator.signal_cache_count self' = Estimator.signal_cache_count self ∧
      Estimator.state_cache_count self' = Estimator.state_cache_count self
  end.
Proof.
  cbv zeta. unfold Estimator.measure.
  destruct (Z.eqb_spec (Z.of_nat (length cur_signals))
              (Estimator.signal_number self)) as [Hsig|]; cbn [negb]; [|done].
  destruct (parse self cur_signals) as [[cur_states|]|e] eqn:Hparse; [|done..].
  destruct (Z.eqb_spec (Z.of_nat (length cur_states))
              (Estimator.state_number self)) as [Hst|]; cbn [negb]; [|done].
  unfold Estimator.update, bind, gets, modify,
    Estimator.on_signals_cache, Estimator.on_states_cache.
  pose proof (append_in_place_pure (Estimator.signals_cache self) cur_states
                (Estimator.signal_cache_limit self)
                (Estimator.signal_cache_count self)) as H1.
  destruct (State._append_with_number_limit (Estimator.signals_cache self) _ _ _)
    as [c1|e1] eqn:Ha1; cycle 1.
  { destruct (Estimator.append_in_place cur_states _ _ _) as [r1 c1].
    cbn in H1. subst r1. done. }
  rewrite H1. cbn.
  pose proof (append_in_place_pure (Estimator.states_cache self) cur_signals
                (Estimator.state_cache_limit self)
                (Estimator.state_cache_count self)) as H2.
  destruct (State._append_with_number_limit (Estimator.states_cache self) _ _ _)
    as [c2|e2] eqn:Ha2; cycle 1.
  { destruct (Estimator.append_in_place cur_signals _ _ _) as [r2 c2].
    cbn in H2. subst r2. done. }
  rewrite H2. cbn. split_and!; try done.
  exists cur_states. split_and!; done.
Qed.

(** ** More runs on the sample frame *)

Lemma process_before_process_depth_witness :
  process Frame.img (Frame.fresh Frame.no_params)
  = (Raise (AssertionError assert_nonROI_inputs),
     set_rgb_img (Some Frame.img) (Frame.fresh Frame.no_params)).
Proof.
  apply (process_before_process_depth Frame.img (Frame.fresh Frame.no_params)).
  left. reflexivity.
Defined.





Lemma process_depth_rejected_witness :
  process_depth [[1]]%float (Frame.ready Frame.no_params)
  = (Raise ShapeMismatch,
     set_depth (Some [[1]]%float) (Frame.ready Frame.no_params)) ∧
  nonROI (set_depth (Some [[1]]%float) (Frame.ready Frame.no_params))
  = (Raise IndexError,
     set_depth (Some [[1]]%float) (Frame.ready Frame.no_params)).
Proof.
  destruct (process_depth_rejected [[1]]%float (Frame.ready Frame.no_params)
              ShapeMismatch) as [Hrun Hnon].
  { reflexivity. }
  split; [exact Hrun|].
  exact (Hnon [[0; 2]; [1; 0]]%float eq_refl).
Defined.

Lemma process_depth_accepted_witness :
  ∃ st',
    process_depth Frame.current (Frame.fresh Frame.no_params) = (Ok tt, st') ∧
    depth st' = Some Frame.current ∧
    height_map st' = Some [[0; 2]; [1; 0]]%float ∧
    ∃ m, nonROI st' = (Ok m, st') ∧ Np.shape m = Np.shape Frame.current.
Proof.
  destruct (process_depth_accepted Frame.current (Frame.fresh Frame.no_params)
              [[0; 2]; [-1; 0]]%float)
    as (st' & Hrun & Hd & Hh & _ & _ & _ & _ & _ & _ & _ & _ & _ & Hn).
  { reflexivity. }
  exists st'. split_and!; [exact Hrun|exact Hd|exact Hh|exact Hn].
Defined.

Lemma get_layer_content_witness :
  ∃ out,
    get_layer warp_identity "bg" false false (Frame.processed Frame.no_params)
    = (Ok (LImage out), Frame.processed Frame.no_params) ∧
    Np.shape out = Np.shape Frame.img ∧
    ∀ i j p,
      Np.px Frame.img i j = Some p →
      ∃ c : bool,
        Np.px [[false; true]; [true; false]] i j = Some c ∧
        Np.px out i j = Some (if c then p else (0, 0, 0)%Z).
Proof.
  apply (get_layer_content warp_identity (Frame.processed Frame.no_params)
           "bg" [[false; true]; [true; false]] Frame.img).
  - apply (bool_decide_unpack _). vm_compute. exact I.
  - reflexivity.
  - reflexivity.
  - reflexivity.
  - intros [|[|i]] [|[|j]] r g b Hp; vm_compute in Hp;
      first [discriminate Hp | injection Hp as <- <- <-; lia].
Defined.

Lemma get_layer_without_mask_witness :
  get_layer warp_identity "robot" true false (Frame.fresh Frame.no_params)
  = (Raise (AttributeError "astype"), Frame.fresh Frame.no_params) ∧
  get_layer warp_identity "robot" false false (Frame.fresh Frame.no_params)
  = (Raise TypeError, Frame.fresh Frame.no_params).
Proof.
  destruct (get_layer_without_mask warp_identity (Frame.fresh Frame.no_params)
              "robot") as (Hmask & _ & Hcontent).
  - apply (bool_decide_unpack _). vm_compute. exact I.
  - reflexivity.
  - split; [exact Hmask|exact (Hcontent false)].
Defined.

Lemma get_layer_rectify_lossless_witness :
  get_layer warp_identity "human" true true (Frame.processed Frame.bev_params)
  = (Ok (LMask Frame.human_raw), Frame.processed Frame.bev_params).
Proof.
  apply (get_layer_rectify_lossless warp_identity
           (Frame.processed Frame.bev_params) "human" Frame.human_raw identity3).
  - apply (bool_decide_unpack _). vm_compute. exact I.
  - reflexivity.
  - reflexivity.
  - reflexivity.
Defined.

Lemma append_preserves_shape_witness :
  Np.shape [[2; 2]; [3; 3]; [4; 4]]%float = Np.shape [[1; 1]; [2; 2]; [3; 3]]%float.
Proof.
  apply (append_preserves_shape [[1; 1]; [2; 2]; [3; 3]]%float [4; 4]%float 3 7).
  reflexivity.
Defined.

Lemma append_sliding_window_witness :
  ∃ cache',
    State.append_all [[0]; [0]; [0]]%float 3 0 [[1]; [2]; [3]; [4]; [5]]%float
    = Ok (cache', 5%Z) ∧
    length cache' = 3 ∧
    State.logical_length 3 5 = 3 ∧
    State.snapshot cache' 3 5 = [[3]; [4]; [5]]%float.
Proof.
  apply (append_sliding_window 3 1 [[0]; [0]; [0]]%float
           [[1]; [2]; [3]; [4]; [5]]%float).
  - lia.
  - reflexivity.
  - repeat constructor.
  - repeat constructor.
Defined.

Lemma append_on_init_cache_witness :
  State._append_with_number_limit (State.np_empty (λ _ _, 0%float) 2 3)
    [1; 2]%float 3 0
  = Raise ValueError.
Proof.
  destruct (append_on_init_cache (λ _ _, 0%float) 2 3) as [Hfirst _]; [lia..|].
  apply (Hfirst [1; 2]%float); [reflexivity|lia|lia].
Defined.

Lemma append_refused_item_witness :
  Estimator.append_in_place [9; 9; 9]%float 3 1 [[1; 1]; [2; 2]; [3; 3]]%float
  = (Raise ValueError, [[1; 1]; [2; 2]; [3; 3]]%float) ∧
  Estimator.append_in_place [9; 9; 9]%float 3 3 [[1; 1]; [2; 2]; [3; 3]]%float
  = (Raise ValueError, [[2; 2]; [3; 3]; [3; 3]]%float).
Proof.
  destruct (append_refused_item 3 2 [[1; 1]; [2; 2]; [3; 3]]%float [9; 9; 9]%float)
    as [Hfree Hfull].
  - lia.
  - reflexivity.
  - repeat constructor.
  - cbn. lia.
  - cbn. lia.
  - split; [apply (Hfree 1%Z); lia | apply (Hfull 3%Z); lia].
Defined.

(** ** The points of a tracker *)

Lemma lookup_seq_id {A} (d : A) (l : list A) :
  (λ i, default d (l !! i)) <$> seq 0 (length l) = l.
Proof.
  induction l as [|x l IH]; [reflexivity|].
  cbn. f_equal. rewrite <- fmap_S_seq, <- list_fmap_compose. exact IH.
Qed.

Lemma flatten_lookup {A} (pts : list (A * A)) i :
  Nd.flatten pts !! (i * 2) = fst <$> pts !! i ∧
  Nd.flatten pts !! (i * 2 + 1) = snd <$> pts !! i.
Proof.
  revert i. induction pts as [|p pts IH]; intros [|i]; try (split; reflexivity).
  exact (IH i).
Qed.

Lemma transpose_coords {A} (d : A) (xs ys : list A) :
  length xs = length ys →
  Nd.transpose d (Nd.of_coords xs ys)
  = Nd.Make [length xs; 2] (Nd.flatten (zip xs ys)).
Proof.
  intros Hlen. unfold Nd.transpose, Nd.of_coords, Nd.flatten. cbn.
  f_equal. f_equal. apply list_eq. intros k.
  rewrite !list_lookup_fmap, lookup_zip_with.
  destruct (decide (k < length xs)) as [Hk|Hk].
  - rewrite lookup_seq_lt by done. cbn.
    destruct (lookup_lt_is_Some_2 xs k Hk) as [x Hx].
    destruct (lookup_lt_is_Some_2 ys k ltac:(lia)) as [y Hy].
    rewrite Hx, Hy. cbn.
    rewrite lookup_app_l, Hx by done.
    rewrite lookup_app_r by lia.
    replace (length xs + 0 + k - length xs) with k by lia.
    by rewrite Hy.
  - rewrite lookup_seq_ge by lia.
    rewrite (lookup_ge_None_2 xs k) by lia. reflexivity.
Qed.

Lemma transpose_points {A} (d : A) (pts : list (A * A)) :
  Nd.transpose d (Nd.Make [length pts; 2] (Nd.flatten pts))
  = Nd.of_coords (fst <$> pts) (snd <$> pts).
Proof.
  unfold Nd.transpose, Nd.of_coords. cbn. rewrite length_fmap, app_nil_r.
  f_equal. f_equal.
  - etrans; [|apply (lookup_seq_id d)]. rewrite length_fmap.
    apply list_fmap_ext. intros _ i _.
    rewrite Nat.add_0_r, list_lookup_fmap.
    by rewrite (proj1 (flatten_lookup pts i)).
  - etrans; [|apply (lookup_seq_id d)]. rewrite length_fmap.
    apply list_fmap_ext. intros _ i _.
    rewrite list_lookup_fmap.
    by rewrite (proj2 (flatten_lookup pts i)).
Qed.

Lemma norm_index_cases (n : nat) (z : Z) :
  ((- Z.of_nat n ≤ z < Z.of_nat n)%Z ∧
   ∃ k, State.norm_index n z = Ok k ∧ k < n ∧
        (z = Z.of_nat k ∨ z = Z.of_nat k - Z.of_nat n)%Z) ∨
  (¬ (- Z.of_nat n ≤ z < Z.of_nat n)%Z ∧
   State.norm_index n z = Raise IndexError).
Proof.
  unfold State.norm_index.
  destruct (Z.ltb_spec z (- Z.of_nat n)), (Z.leb_spec (Z.of_nat n) z);
    cbn; try (right; split; [lia|reflexivity]).
  left. split; [lia|]. eexists. split; [reflexivity|].
  destruct (Z.ltb_spec z 0); lia.
Qed.

Lemma norm_index_inj (n k : nat) (z : Z) :
  State.norm_index n z = Ok k →
  k < n ∧ (z = Z.of_nat k ∨ z = Z.of_nat k - Z.of_nat n)%Z.
Proof.
  destruct (norm_index_cases n z) as [[_ (k' & -> & ? & ?)]|[_ ->]];
    [intros [= <-]; done|done].
Qed.

Lemma norm_index_hit (n k : nat) (z : Z) :
  k < n → (z = Z.of_nat k ∨ z = Z.of_nat k - Z.of_nat n)%Z →
  State.norm_index n z = Ok k.
Proof.
  intros Hk Hz. unfold State.norm_index.
  destruct (Z.ltb_spec z (- Z.of_nat n)), (Z.leb_spec (Z.of_nat n) z);
    cbn; try lia.
  f_equal. destruct (Z.ltb_spec z 0); lia.
Qed.

Lemma width_replicate {A} (m : array2 A) (H W : nat) :
  Np.shape m = replicate H W → H ≠ 0 → Np.width m = W.
Proof.
  destruct m as [|r m], H as [|H]; try done. by intros [= ? _] _.
Qed.

Lemma px_insert_true (m : mask) (i j i' j' : nat) (row : list bool) :
  m !! i = Some row → j < length row →
  Np.px (<[i := <[j := true]> row]> m) i' j' = Some true
  ↔ (i' = i ∧ j' = j) ∨ Np.px m i' j' = Some true.
Proof.
  intros Hrow Hj. unfold Np.px.
  assert (i < length m) as Hi by (by eapply lookup_lt_Some).
  destruct (decide (i' = i)) as [->|Hne].
  - rewrite list_lookup_insert_eq by done. rewrite Hrow. cbn.
    destruct (decide (j' = j)) as [->|Hnj].
    + rewrite list_lookup_insert_eq by done. tauto.
    + rewrite list_lookup_insert_ne by done. intuition congruence.
  - rewrite list_lookup_insert_ne by done. intuition congruence.
Qed.

(** Marking points on a rectangular mask: with every pair of indices in
    bounds the marked pixels are added to the mask, and one pair out of
    bounds raises. *)
Lemma setitem_points_marks (idx : list (Z * Z)) (H W : nat) :
  ∀ m : mask,
    Np.shape m = replicate H W →
    Forall (λ p, (- Z.of_nat H ≤ p.1 < Z.of_nat H)%Z ∧
                 (- Z.of_nat W ≤ p.2 < Z.of_nat W)%Z) idx →
    ∃ m',
      setitem_points m idx true = Ok m' ∧
      Np.shape m' = Np.shape m ∧
      ∀ i j, Np.px m' i j = Some true
             ↔ Np.px m i j = Some true ∨
               ∃ p, p ∈ idx ∧ State.norm_index H p.1 = Ok i ∧
                    State.norm_index W p.2 = Ok j.
Proof.
  induction idx as [|[r c] idx IH]; intros m Hm Hall.
  - exists m. split_and!; [done..|].
    intros i j. split; [by left|]. intros [?|(p & Hp & _)]; [done|].
    by apply elem_of_nil in Hp.
  - apply Forall_cons in Hall as [[Hr Hc] Hall]. cbn in Hr, Hc.
    assert (length m = H) as HH.
    { apply (f_equal length) in Hm.
      by rewrite length_replicate in Hm; unfold Np.shape in Hm;
        rewrite length_fmap in Hm. }
    assert (Np.width m = W) as HW by (apply (width_replicate m H); [done|lia]).
    cbn [setitem_points]. unfold Np.height. rewrite HH, HW.
    destruct (norm_index_cases H r) as [[_ (i0 & Hi0 & Hlt & _)]|[? _]]; [|lia].
    destruct (norm_index_cases W c) as [[_ (j0 & Hj0 & Hjlt & _)]|[? _]]; [|lia].
    rewrite Hi0, Hj0.
    destruct (lookup_lt_is_Some_2 m i0 ltac:(lia)) as [row Hrow].
    rewrite Hrow.
    assert (length row = W) as Hlen.
    { apply (f_equal (λ s, s !! i0)) in Hm. unfold Np.shape in Hm.
      rewrite list_lookup_fmap, Hrow, lookup_replicate_2 in Hm by done.
      by injection Hm. }
    assert (Np.shape (<[i0 := <[j0 := true]> row]> m) = Np.shape m) as Hs.
    { unfold Np.shape. rewrite list_fmap_insert, length_insert.
      apply list_insert_id. by rewrite list_lookup_fmap, Hrow. }
    destruct (IH (<[i0 := <[j0 := true]> row]> m)) as (m' & Hrun & Hs' & Hpx);
      [by rewrite Hs|done|].
    exists m'. split_and!; [done|by rewrite Hs', Hs|].
    intros i j. rewrite Hpx, px_insert_true by (done || lia).
    split.
    + intros [[[-> ->]|?]|(p & Hp & ?)].
      * right. exists (r, c). split; [apply elem_of_cons; by left|done].
      * by left.
      * right. exists p. split; [apply elem_of_cons; by right|done].
    + intros [?|(p & Hp & Hpi & Hpj)]; [by left; right|].
      apply elem_of_cons in Hp as [->|Hp].
      * left; left. cbn in Hpi, Hpj. split; congruence.
      * right. by exists p.
Qed.

Lemma setitem_points_raises (idx : list (Z * Z)) (H W : nat) :
  ∀ m : mask,
    Np.shape m = replicate H W →
    ¬ Forall (λ p, (- Z.of_nat H ≤ p.1 < Z.of_nat H)%Z ∧
                   (- Z.of_nat W ≤ p.2 < Z.of_nat W)%Z) idx →
    setitem_points m idx true = Raise IndexError.
Proof.
  induction idx as [|[r c] idx IH]; intros m Hm Hbad.
  - by destruct Hbad.
  - assert (length m = H) as HH.
    { apply (f_equal length) in Hm.
      by rewrite length_replicate in Hm; unfold Np.shape in Hm;
        rewrite length_fmap in Hm. }
    cbn [setitem_points]. unfold Np.height. rewrite HH.
    destruct (norm_index_cases H r) as [[Hr (i0 & -> & Hlt & _)]|[_ ->]];
      [|reflexivity].
    rewrite (width_replicate m H W) by (done || lia).
    destruct (norm_index_cases W c) as [[Hc (j0 & -> & Hjlt & _)]|[_ ->]];
      [|reflexivity].
    destruct (lookup_lt_is_Some_2 m i0 ltac:(lia)) as [row Hrow].
    rewrite Hrow. apply IH.
    + unfold Np.shape. rewrite list_fmap_insert, length_insert.
      rewrite list_insert_id; [done|]. by rewrite list_lookup_fmap, Hrow.
    + intros Hall. apply Hbad. by apply Forall_cons.
Qed.

Section TrackerFacts.

Variable perspectiveTransform : Nd.t float → homography → result (Nd.t float).
Variable float_to_int : float → Z.
Variable f : float * float → float * float.
Variable bev : homography.
Hypothesis transform_pointwise : pointwise f perspectiveTransform bev.

(** The rectification up to the output of the transform, for one point
    or more. *)
Lemma rectify_tpt_run (xs ys : list float) :
  length xs = length ys →
  0 < length xs →
  rectify_tpt perspectiveTransform (Nd.of_coords xs ys) bev
  = Ok (Nd.transpose 0%float
          (Nd.squeeze (Nd.Make [1; length xs; 2]
                         (Nd.flatten (f <$> zip xs ys))))).
Proof.
  intros Hlen Hpos. unfold rectify_tpt.
  rewrite transpose_coords by done.
  assert (length (zip xs ys) = length xs) as Hz
    by (rewrite length_zip_with; lia).
  rewrite <- Hz. cbn [Nd.newaxis_2 Nd.shape Nd.data and_then].
  by rewrite transform_pointwise
    by (intros Hnil; rewrite Hnil in Hz; cbn in Hz; lia).
Qed.

(** With two points or more only the first axis is squeezed, and the
    transposition gives the two rows of coordinates. *)
Lemma squeeze_transpose_points {A} (d : A) (pts : list (A * A)) (N : nat) :
  length pts = N →
  1 < N →
  Nd.transpose d (Nd.squeeze (Nd.Make [1; N; 2] (Nd.flatten pts)))
  = Nd.of_coords (fst <$> pts) (snd <$> pts).
Proof.
  intros <- Hone. unfold Nd.squeeze. cbn [Nd.shape Nd.data].
  rewrite filter_cons_False by (intros ?; done).
  rewrite filter_cons_True by lia.
  rewrite filter_cons_True by done.
  apply transpose_points.
Qed.

(** X21: Rectifying two or more points of a tracker keeps their number
    and their order: the two rows of coordinates [xs] and [ys] become the
    rows of the first and of the second coordinates of the transformed
    points, point by point. *)
Theorem rectify_tpt_points (xs ys : list float) :
  length xs = length ys →
  1 < length xs →
  rectify_tpt perspectiveTransform (Nd.of_coords xs ys) bev
  = Ok (Nd.of_coords (fst ∘ f <$> zip xs ys) (snd ∘ f <$> zip xs ys)).
Proof.
  intros Hlen Hone.
  rewrite rectify_tpt_run by (done || lia).
  rewrite (squeeze_transpose_points _ _ (length xs)).
  - by rewrite !list_fmap_compose.
  - rewrite length_fmap, length_zip_with. lia.
  - done.
Qed.

(** X22: With exactly one point the rectified coordinates lose an axis:
    they are a one-dimensional array of the two coordinates of the
    transformed point, and marking the centroids in [vis_puzzles] then
    raises [IndexError] whatever the puzzle mask is. *)
Theorem rectify_tpt_single_point (x y : float) (puzzle_seg_mask : mask) :
  rectify_tpt perspectiveTransform (Nd.of_coords [x] [y]) bev
  = Ok (Nd.Make [2] [fst (f (x, y)); snd (f (x, y))]) ∧
  puzzle_solver_mask perspectiveTransform float_to_int puzzle_seg_mask
    (Nd.of_coords [x] [y]) bev
  = Raise IndexError.
Proof.
  assert (rectify_tpt perspectiveTransform (Nd.of_coords [x] [y]) bev
          = Ok (Nd.Make [2] [fst (f (x, y)); snd (f (x, y))])) as Hr.
  { unfold rectify_tpt.
    rewrite transpose_coords by done.
    pose proof (transform_pointwise [(x, y)] ltac:(done)) as Hp.
    cbn in Hp |- *. rewrite Hp. reflexivity. }
  split; [exact Hr|].
  unfold puzzle_solver_mask. rewrite Hr. reflexivity.
Qed.

Lemma centroid_mask_coords (xs ys : list float) (m : mask) :
  length xs = length ys →
  centroid_mask float_to_int m (Nd.of_coords xs ys)
  = setitem_points (Np.zeros_like_bool m)
      (zip (float_to_int <$> ys) (float_to_int <$> xs)) true.
Proof.
  intros Hlen. unfold centroid_mask, Nd.getitem_row, Nd.map, Nd.of_coords.
  cbn [Nd.shape Nd.data Nd.prod foldr].
  change (State.norm_index 2 1) with (@Ok nat 1).
  change (State.norm_index 2 0) with (@Ok nat 0).
  cbn [and_then]. rewrite decide_True by done.
  rewrite fmap_app, !Nat.mul_1_r, Nat.mul_1_l, Nat.mul_0_l.
  rewrite drop_app_length' by (by rewrite length_fmap).
  rewrite take_ge by (rewrite length_fmap; lia).
  by rewrite drop_0, take_app_length' by (by rewrite length_fmap).
Qed.

Lemma px_zeros_like_bool (m : mask) i j :
  Np.px (Np.zeros_like_bool m) i j ≠ Some true.
Proof.
  unfold Np.zeros_like_bool. rewrite px_map2d.
  by destruct (Np.px m i j).
Qed.

Lemma zip_coords (xs ys : list float) :
  zip (float_to_int <$> (snd ∘ f <$> zip xs ys))
      (float_to_int <$> (fst ∘ f <$> zip xs ys))
  = (λ p, (float_to_int p.2, float_to_int p.1)) <$> (f <$> zip xs ys).
Proof.
  induction (zip xs ys) as [|p l IH]; [reflexivity|]. cbn. by f_equal.
Qed.

(** X23: On a puzzle mask of [H] rows and [W] columns, with two or more
    points whose transforms are all inside the frame (a negative
    coordinate counts from the far border), [vis_puzzles] marks exactly the
    pixels of the points: the pixel of row [i] and column [j] is set iff
    the second coordinate of some transformed point converts to [i] or
    [i - H] and its first coordinate to [j] or [j - W]. *)
Theorem puzzle_solver_mask_marks (xs ys : list float) (m : mask) (H W : nat) :
  length xs = length ys →
  1 < length xs →
  Np.shape m = replicate H W →
  Forall (λ p, (- Z.of_nat H ≤ float_to_int p.2 < Z.of_nat H)%Z ∧
               (- Z.of_nat W ≤ float_to_int p.1 < Z.of_nat W)%Z)
         (f <$> zip xs ys) →
  ∃ m',
    puzzle_solver_mask perspectiveTransform float_to_int m
      (Nd.of_coords xs ys) bev = Ok m' ∧
    Np.shape m' = Np.shape m ∧
    ∀ i j,
      Np.px m' i j = Some true
      ↔ i < H ∧ j < W ∧
        ∃ p, p ∈ f <$> zip xs ys ∧
             (float_to_int p.2 = Z.of_nat i ∨
              float_to_int p.2 = Z.of_nat i - Z.of_nat H)%Z ∧
             (float_to_int p.1 = Z.of_nat j ∨
              float_to_int p.1 = Z.of_nat j - Z.of_nat W)%Z.
Proof.
  intros Hlen Hone Hm Hin. unfold puzzle_solver_mask.
  rewrite rectify_tpt_run by (done || lia).
  rewrite (squeeze_transpose_points _ _ (length xs))
    by (rewrite ?length_fmap, ?length_zip_with; lia).
  rewrite <- !list_fmap_compose. cbn [and_then].
  rewrite centroid_mask_coords by (by rewrite !length_fmap).
  rewrite zip_coords.
  destruct (setitem_points_marks
              ((λ p, (float_to_int p.2, float_to_int p.1)) <$> (f <$> zip xs ys))
              H W (Np.zeros_like_bool m)) as (m' & Hrun & Hs & Hpx).
  - unfold Np.zeros_like_bool. by rewrite shape_map2d.
  - apply Forall_fmap. eapply Forall_impl; [exact Hin|]. by intros p [? ?].
  - exists m'. split_and!; [done|..].
    + rewrite Hs. unfold Np.zeros_like_bool. by rewrite shape_map2d.
    + intros i j. rewrite Hpx. split.
      * intros [Hz|(q & Hq & Hi & Hj)]; [by apply px_zeros_like_bool in Hz|].
        apply list_elem_of_fmap in Hq as (p & -> & Hp). cbn in Hi, Hj.
        apply norm_index_inj in Hi as [? ?], Hj as [? ?].
        split_and!; [done..|]. by exists p.
      * intros (Hi & Hj & p & Hp & Hr & Hc). right.
        exists (float_to_int p.2, float_to_int p.1). split_and!.
        -- apply list_elem_of_fmap. by exists p.
        -- by apply norm_index_hit.
        -- by apply norm_index_hit.
Qed.

(** X24: With two or more points, one transformed point outside the
    frame, beyond the wrap-around of negative indices, makes [vis_puzzles]
    raise [IndexError] instead of clipping the point. *)
Theorem puzzle_solver_mask_out_of_frame
    (xs ys : list float) (m : mask) (H W : nat) :
  length xs = length ys →
  1 < length xs →
  Np.shape m = replicate H W →
  Exists (λ p, ¬ ((- Z.of_nat H ≤ float_to_int p.2 < Z.of_nat H)%Z ∧
                  (- Z.of_nat W ≤ float_to_int p.1 < Z.of_nat W)%Z))
         (f <$> zip xs ys) →
  puzzle_solver_mask perspectiveTransform float_to_int m
    (Nd.of_coords xs ys) bev = Raise IndexError.
Proof.
  intros Hlen Hone Hm Hout. unfold puzzle_solver_mask.
  rewrite rectify_tpt_run by (done || lia).
  rewrite (squeeze_transpose_points _ _ (length xs))
    by (rewrite ?length_fmap, ?length_zip_with; lia).
  rewrite <- !list_fmap_compose. cbn [and_then].
  rewrite centroid_mask_coords by (by rewrite !length_fmap).
  rewrite zip_coords.
  apply (setitem_points_raises _ H W).
  - unfold Np.zeros_like_bool. by rewrite shape_map2d.
  - intros Hall. apply Exists_exists in Hout as (p & Hp & Hbad).
    apply Hbad. rewrite Forall_fmap in Hall.
    rewrite Forall_forall in Hall. exact (Hall p Hp).
Qed.

End TrackerFacts.

Lemma pairs_flatten (pts : list (float * float)) :
  pairs (Nd.flatten pts) = pts.
Proof.
  induction pts as [|[x y] pts IH]; [reflexivity|]. cbn. by f_equal.
Qed.

Lemma shift_points_pointwise : pointwise shift_point shift_points identity3.
Proof.
  intros pts _. unfold shift_points. cbn [Nd.shape Nd.data].
  by rewrite pairs_flatten.
Qed.

Lemma rectify_tpt_points_witness :
  rectify_tpt shift_points (Nd.of_coords [0; 1; 2] [1; 2; 3])%float identity3
  = Ok (Nd.of_coords [1; 2; 3] [0; 1; 2])%float.
Proof.
  exact (rectify_tpt_points shift_points shift_point identity3
           shift_points_pointwise [0; 1; 2]%float [1; 2; 3]%float
           eq_refl ltac:(cbn; lia)).
Defined.

Lemma rectify_tpt_single_point_witness :
  rectify_tpt shift_points (Nd.of_coords [0] [1])%float identity3
  = Ok (Nd.Make [2] [1; 0]%float) ∧
  puzzle_solver_mask shift_points small_int [[false; false]; [false; false]]
    (Nd.of_coords [0] [1])%float identity3
  = Raise IndexError.
Proof.
  exact (rectify_tpt_single_point shift_points small_int shift_point identity3
           shift_points_pointwise 0%float 1%float
           [[false; false]; [false; false]]).
Defined.

Lemma puzzle_solver_mask_marks_witness :
  ∃ m',
    puzzle_solver_mask shift_points small_int
      [[true; true; true]; [true; true; true]]
      (Nd.of_coords [0; 1] [1; 2])%float identity3 = Ok m' ∧
    Np.px m' 0 1 = Some true ∧ Np.px m' 1 2 = Some true ∧
    Np.px m' 0 0 ≠ Some true.
Proof.
  destruct (puzzle_solver_mask_marks shift_points small_int shift_point
              identity3 shift_points_pointwise
              [0; 1]%float [1; 2]%float
              [[true; true; true]; [true; true; true]] 2 3)
    as (m' & Hrun & _ & Hpx).
  - reflexivity.
  - cbn; lia.
  - reflexivity.
  - repeat constructor; vm_compute; congruence.
  - exists m'. split_and!; [exact Hrun|..].
    + apply Hpx. split_and!; [lia..|].
      exists (1, 0)%float. split_and!; [|by left..].
      apply list_elem_of_here.
    + apply Hpx. split_and!; [lia..|].
      exists (2, 1)%float. split_and!; [|by left..].
      apply list_elem_of_further, list_elem_of_here.
    + rewrite Hpx. intros (_ & _ & p & Hp & _ & Hc).
      apply elem_of_cons in Hp as [->|Hp];
        [vm_compute in Hc; destruct Hc; discriminate|].
      apply elem_of_cons in Hp as [->|Hp];
        [vm_compute in Hc; destruct Hc; discriminate|].
      by apply elem_of_nil in Hp.
Defined.

Lemma puzzle_solver_mask_out_of_frame_witness :
  puzzle_solver_mask shift_points small_int
    [[false; false]; [false; false]]
    (Nd.of_coords [0; 3] [1; 1])%float identity3
  = Raise IndexError.
Proof.
  apply (puzzle_solver_mask_out_of_frame shift_points small_int shift_point
           identity3 shift_points_pointwise
           [0; 3]%float [1; 1]%float [[false; false]; [false; false]] 2 2).
  - reflexivity.
  - cbn; lia.
  - reflexivity.
  - apply Exists_cons_tl, Exists_cons_hd.
    intros [_ Hc]. vm_compute in Hc. destruct Hc as [_ Hc]. discriminate Hc.
Defined.
